(** * EventHub backend: events, registrations and the capacity check

    A shallow embedding of [Backend/database.js] (the SQLite access layer)
    and of the Express handlers of the server file, followed by the
    properties of the registration workflow.

    Modelling conventions.
    - A table is the list of its rows in rowid order; an AUTOINCREMENT key
      is drawn from a per-table sequence kept in the database.
    - The numbers the program computes with ([parseInt] results, ids,
      ticket counts, capacities) are integers or NaN ([num]); arithmetic on
      them is exact and a number prints as its decimal digits, as
      JavaScript does below 2^53 and 10^21.  Prices are the only fractional
      numbers and are rationals.
    - Request fields are JSON values ([JsVal]); an array or object carries
      only its string conversion.  Strings are sequences of bytes.
    - A parameter bound to a statement follows node-sqlite3 and SQLite: NaN,
      null and undefined become NULL, a boolean becomes 1 or 0, and a TEXT
      column turns what it receives into text.
    - A statement sent to the engine either runs atomically or fails and
      leaves the database untouched; failures of the engine itself (I/O,
      busy, disk full) come from a schedule of faults in the [World].
      Statements run in the order in which they were issued.
    - The columns [created_at] and [registration_date], filled by the
      engine clock, are not represented; the CSV export, the one reader of
      [registration_date], takes the column as a parameter.
    - The health route, the static files and the start of the HTTP server
      are not modelled. *)

From Stdlib Require Import ZArith QArith Bool List Lia.
From Stdlib Require Import Ascii String DecimalString DecimalPos.
From Stdlib Require Import OrdersEx Sorted Permutation.
Import ListNotations.

Local Open Scope string_scope.
Local Open Scope list_scope.
Local Open Scope Z_scope.

(** ** JavaScript values *)

(** Integer-valued JavaScript numbers, with NaN. *)
Inductive num : Type :=
| NaN
| Num (z : Z).

Definition num_add (a b : num) : num :=
  match a, b with
  | Num x, Num y => Num (x + y)
  | _, _ => NaN
  end.

(** [a > b]; any comparison with NaN is false. *)
Definition num_gt (a b : num) : bool :=
  match a, b with
  | Num x, Num y => y <? x
  | _, _ => false
  end.

(** A value found in a parsed JSON body or query string. *)
Inductive JsVal : Type :=
| JUndefined
| JNull
| JBool (b : bool)
| JNum (z : Z)
| JStr (s : string)
| JOther (str : string).

Definition show_Z (z : Z) : string := NilZero.string_of_int (Z.to_int z).

Definition toString (v : JsVal) : string :=
  match v with
  | JUndefined => "undefined"
  | JNull => "null"
  | JBool true => "true"
  | JBool false => "false"
  | JNum z => show_Z z
  | JStr s => s
  | JOther s => s
  end.

(** ToBoolean. *)
Definition truthy (v : JsVal) : bool :=
  match v with
  | JUndefined | JNull => false
  | JBool b => b
  | JNum z => negb (z =? 0)
  | JStr s => negb (s =? "")%string
  | JOther _ => true
  end.

(** [a || b]. *)
Definition js_or (a b : JsVal) : JsVal := if truthy a then a else b.

(** *** parseInt with no radix argument *)

Definition code (c : ascii) : Z := Z.of_N (N_of_ascii c).

(** Tab, line feed, vertical tab, form feed, carriage return and space;
    the white space outside ASCII is not recognised. *)
Definition isWhiteSpace (c : ascii) : bool :=
  let n := code c in ((9 <=? n) && (n <=? 13)) || (n =? 32).

Fixpoint trimStart (s : string) : string :=
  match s with
  | String c r => if isWhiteSpace c then trimStart r else s
  | EmptyString => s
  end.

Definition digitValue (radix : Z) (c : ascii) : option Z :=
  let n := code c in
  let v := if (48 <=? n) && (n <=? 57) then n - 48
           else if (97 <=? n) && (n <=? 122) then n - 87
           else if (65 <=? n) && (n <=? 90) then n - 55
           else radix in
  if v <? radix then Some v else None.

(** Value of the longest prefix of radix digits; [acc] is [None] until a
    digit has been read. *)
Fixpoint parseDigits (radix : Z) (s : string) (acc : option Z) : option Z :=
  match s with
  | String c r =>
      match digitValue radix c with
      | Some d =>
          parseDigits radix r
            (Some (radix * (match acc with Some a => a | None => 0 end) + d))
      | None => acc
      end
  | EmptyString => acc
  end.

Definition stripSign (s : string) : Z * string :=
  match s with
  | String "-" r => (-1, r)
  | String "+" r => (1, r)
  | _ => (1, s)
  end.

Definition stripHexPrefix (s : string) : Z * string :=
  match s with
  | String "0" (String "x" r) => (16, r)
  | String "0" (String "X" r) => (16, r)
  | _ => (10, s)
  end.

Definition parseIntString (s : string) : num :=
  let (sign, s1) := stripSign (trimStart s) in
  let (radix, s2) := stripHexPrefix s1 in
  match parseDigits radix s2 None with
  | Some m => Num (sign * m)
  | None => NaN
  end.

Definition parseInt (v : JsVal) : num := parseIntString (toString v).

(** ** The database *)

Module Event.
(** A row of [events]. *)
Record t : Type := mk {
  id : Z;
  title : string;
  description : string;
  date : string;
  time : string;
  location : string;
  capacity : Z;
  attendees : option Z;
  category : string;
  image : option string;
  price : option Q
}.

Definition set_attendees (a : option Z) (e : t) : t :=
  mk (id e) (title e) (description e) (date e) (time e) (location e)
     (capacity e) a (category e) (image e) (price e).
End Event.

Module Registration.
(** A row of [registrations]. *)
Record t : Type := mk {
  id : Z;
  event_id : Z;
  first_name : string;
  last_name : string;
  email : string;
  phone : string;
  tickets : Z;
  comments : option string
}.
End Registration.

Record DB : Type := mkDB {
  events : list Event.t;
  registrations : list Registration.t;
  events_seq : Z;
  registrations_seq : Z
}.

Inductive StorageError : Type :=
| EngineFault
| ConstraintFailed.

Inductive Result (A : Type) : Type :=
| Resolved (a : A)
| Rejected (err : StorageError).
Arguments Resolved {A} a.
Arguments Rejected {A} err.

(** The database together with the faults the engine will raise on the
    statements to come ([true]: the next statement fails). *)
Record World : Type := mkWorld {
  db : DB;
  faults : list bool
}.

(** A promise-returning function of [database.js]. *)
Definition Promise (A : Type) : Type := World -> Result A * World.

(** One [db.run], [db.get] or [db.all]. *)
Definition statement {A : Type} (q : DB -> Result A * DB) : Promise A :=
  fun w =>
    if hd false (faults w)
    then (Rejected EngineFault, mkWorld (db w) (tl (faults w)))
    else let (r, d) := q (db w) in (r, mkWorld d (tl (faults w))).

(** What a bound parameter becomes in a TEXT column ([None] is NULL). *)
Definition bindText (v : JsVal) : option string :=
  match v with
  | JUndefined | JNull => None
  | JBool true => Some "1"
  | JBool false => Some "0"
  | JNum z => Some (show_Z z)
  | JStr s => Some s
  | JOther s => Some s
  end.

(** What a bound number becomes in an INTEGER column: NaN is stored as
    NULL. *)
Definition bindInt (n : num) : option Z :=
  match n with
  | NaN => None
  | Num z => Some z
  end.

(** ** database.js *)

Definition bindP {A B : Type} (p : Promise A) (k : A -> Promise B) : Promise B :=
  fun w =>
    match p w with
    | (Resolved a, w1) => k a w1
    | (Rejected err, w1) => (Rejected err, w1)
    end.

(** [WHERE id = ?] and [WHERE event_id = ?]: a NaN parameter is bound as
    NULL and equals no row. *)
Definition id_is (n : num) (z : Z) : bool :=
  match n with
  | Num k => z =? k
  | NaN => false
  end.

(** *** Sample data *)

Module SampleEvent.
(** An element of the array [sampleEvents]. *)
Record t : Type := mk {
  title : string;
  description : string;
  date : string;
  time : string;
  location : string;
  capacity : Z;
  attendees : Z;
  category : string;
  image : string;
  price : Q
}.
End SampleEvent.

Definition sampleEvents : list SampleEvent.t :=
  [ SampleEvent.mk "Digital Marketing Conference"
      "Learn the latest trends in digital marketing from industry experts. Network with professionals and grow your skills."
      "2025-11-15" "09:00" "Mumbai, Maharashtra" 250 180 "business"
      "https://images.unsplash.com/photo-1540575467063-178a50c2df87?ixlib=rb-1.2.1&auto=format&fit=crop&w=1350&q=80"
      2999%Q;
    SampleEvent.mk "Startup Innovation Summit"
      "Connect with investors, mentors, and fellow entrepreneurs. Pitch your ideas and find potential collaborators."
      "2025-12-05" "10:00" "Bengaluru, Karnataka" 180 120 "business"
      "https://images.unsplash.com/photo-1511578314322-379afb476865?ixlib=rb-1.2.1&auto=format&fit=crop&w=1350&q=80"
      4499%Q;
    SampleEvent.mk "Web Development Workshop"
      "Hands-on workshop covering modern web development techniques. Perfect for beginners and intermediate developers."
      "2025-11-28" "13:00" "Hyderabad, Telangana" 50 35 "tech"
      "https://images.unsplash.com/photo-1559136555-9303baea8ebd?ixlib=rb-1.2.1&auto=format&fit=crop&w=1350&q=80"
      1999%Q ].

Definition insertSample (ev : SampleEvent.t) : Promise unit :=
  statement (fun d =>
    let lastID := events_seq d + 1 in
    (Resolved tt,
     mkDB (events d ++
             [Event.mk lastID (SampleEvent.title ev) (SampleEvent.description ev)
                (SampleEvent.date ev) (SampleEvent.time ev) (SampleEvent.location ev)
                (SampleEvent.capacity ev) (Some (SampleEvent.attendees ev))
                (SampleEvent.category ev) (Some (SampleEvent.image ev))
                (Some (SampleEvent.price ev))])
          (registrations d) lastID (registrations_seq d))).

(** [Promise.all] over promises whose statements have all been issued:
    every statement runs, and the first rejection is the result. *)
Fixpoint promise_all (ps : list (Promise unit)) : Promise unit :=
  fun w =>
    match ps with
    | [] => (Resolved tt, w)
    | p :: rest =>
        let (r, w1) := p w in
        let (r', w2) := promise_all rest w1 in
        (match r with
         | Rejected err => Rejected err
         | Resolved _ => r'
         end, w2)
    end.

Definition insertSampleData : Promise unit :=
  promise_all (map insertSample sampleEvents).

Definition empty_db : DB := mkDB [] [] 0 0.

(** *** Event methods *)

(** [category !== 'all'] *)
Definition not_all (category : JsVal) : bool :=
  match category with
  | JStr s => negb (s =? "all")%string
  | _ => true
  end.

Definition category_is (category : JsVal) (e : Event.t) : bool :=
  match bindText category with
  | Some c => (Event.category e =? c)%string
  | None => false
  end.

(** [ORDER BY date, time] under the BINARY collation. *)
Definition date_time_le (a b : Event.t) : bool :=
  match String_as_OT.compare (Event.date a) (Event.date b) with
  | Lt => true
  | Gt => false
  | Eq => match String_as_OT.compare (Event.time a) (Event.time b) with
          | Gt => false
          | _ => true
          end
  end.

Fixpoint insert_by_date_time (e : Event.t) (l : list Event.t) : list Event.t :=
  match l with
  | [] => [e]
  | x :: r => if date_time_le e x then e :: l else x :: insert_by_date_time e r
  end.

(** Rows with equal keys stay in rowid order. *)
Definition order_by_date_time (l : list Event.t) : list Event.t :=
  fold_right insert_by_date_time [] l.

Definition getAllEvents (category : JsVal) : Promise (list Event.t) :=
  statement (fun d =>
    let rows := if truthy category && not_all category
                then filter (category_is category) (events d)
                else events d in
    (Resolved (order_by_date_time rows), d)).

Definition getEventById (id : num) : Promise (option Event.t) :=
  statement (fun d => (Resolved (find (fun e => id_is id (Event.id e)) (events d)), d)).

Definition placeholder_image : string :=
  "https://images.unsplash.com/photo-1542736667-069246bdbc6d?ixlib=rb-1.2.1&auto=format&fit=crop&w=1350&q=80".

(** [price || 0] *)
Definition price_or_zero (p : option Q) : Q :=
  match p with
  | Some q => if Qeq_bool q 0 then 0%Q else q
  | None => 0%Q
  end.

Module EventData.
(** The argument of [createEvent]; the price is a number, [None] for NaN. *)
Record t : Type := mk {
  title : JsVal;
  description : JsVal;
  date : JsVal;
  time : JsVal;
  location : JsVal;
  capacity : num;
  category : JsVal;
  image : JsVal;
  price : option Q
}.
End EventData.

Module CreatedEvent.
(** [{ id: this.lastID, ...eventData, attendees: 0 }] *)
Record t : Type := mk {
  id : Z;
  data : EventData.t;
  attendees : Z
}.
End CreatedEvent.

(** The row that the INSERT of [createEvent] writes, when every NOT NULL
    column receives a value. *)
Definition event_row (lastID : Z) (ed : EventData.t) : option Event.t :=
  match bindText (EventData.title ed), bindText (EventData.description ed),
        bindText (EventData.date ed), bindText (EventData.time ed),
        bindText (EventData.location ed), bindInt (EventData.capacity ed),
        bindText (EventData.category ed) with
  | Some title, Some description, Some date, Some time, Some location,
    Some capacity, Some category =>
      Some (Event.mk lastID title description date time location capacity
              (Some 0) category
              (bindText (js_or (EventData.image ed) (JStr placeholder_image)))
              (Some (price_or_zero (EventData.price ed))))
  | _, _, _, _, _, _, _ => None
  end.

Definition createEvent (eventData : EventData.t) : Promise CreatedEvent.t :=
  statement (fun d =>
    let lastID := events_seq d + 1 in
    match event_row lastID eventData with
    | Some row =>
        (Resolved (CreatedEvent.mk lastID eventData 0),
         mkDB (events d ++ [row]) (registrations d) lastID (registrations_seq d))
    | None => (Rejected ConstraintFailed, d)
    end).

Definition updateEventAttendees (eventId : num) (newAttendeeCount : num)
  : Promise unit :=
  statement (fun d =>
    (Resolved tt,
     mkDB (map (fun e => if id_is eventId (Event.id e)
                         then Event.set_attendees (bindInt newAttendeeCount) e
                         else e) (events d))
          (registrations d) (events_seq d) (registrations_seq d))).

Definition deleteEvent (eventId : num) : Promise Z :=
  bindP
    (statement (fun d =>
       (Resolved tt,
        mkDB (events d)
             (filter (fun r => negb (id_is eventId (Registration.event_id r)))
                     (registrations d))
             (events_seq d) (registrations_seq d))))
    (fun _ =>
       statement (fun d =>
         let gone := filter (fun e => id_is eventId (Event.id e)) (events d) in
         (Resolved (Z.of_nat (List.length gone)),
          mkDB (filter (fun e => negb (id_is eventId (Event.id e))) (events d))
               (registrations d) (events_seq d) (registrations_seq d)))).

(** *** Registration methods *)

Module RegistrationData.
(** The argument of [createRegistration]. *)
Record t : Type := mk {
  eventId : num;
  firstName : JsVal;
  lastName : JsVal;
  email : JsVal;
  phone : JsVal;
  tickets : num;
  comments : JsVal
}.
End RegistrationData.

Module CreatedRegistration.
(** [{ id: this.lastID, ...registrationData }] *)
Record t : Type := mk {
  id : Z;
  data : RegistrationData.t
}.
End CreatedRegistration.

(** The row that the INSERT of [createRegistration] writes.  The foreign
    key clause is declared but SQLite does not enforce it unless asked to,
    and the program never asks. *)
Definition registration_row (lastID : Z) (rd : RegistrationData.t)
  : option Registration.t :=
  match bindInt (RegistrationData.eventId rd),
        bindText (RegistrationData.firstName rd),
        bindText (RegistrationData.lastName rd),
        bindText (RegistrationData.email rd),
        bindText (RegistrationData.phone rd),
        bindInt (RegistrationData.tickets rd) with
  | Some event_id, Some first_name, Some last_name, Some email, Some phone,
    Some tickets =>
      Some (Registration.mk lastID event_id first_name last_name email phone
              tickets
              (bindText (js_or (RegistrationData.comments rd) (JStr ""))))
  | _, _, _, _, _, _ => None
  end.

Definition createRegistration (registrationData : RegistrationData.t)
  : Promise CreatedRegistration.t :=
  statement (fun d =>
    let lastID := registrations_seq d + 1 in
    match registration_row lastID registrationData with
    | Some row =>
        (Resolved (CreatedRegistration.mk lastID registrationData),
         mkDB (events d) (registrations d ++ [row]) (events_seq d) lastID)
    | None => (Rejected ConstraintFailed, d)
    end).

Definition rows_of_event (eventId : num) (rows : list Registration.t)
  : list Registration.t :=
  filter (fun r => id_is eventId (Registration.event_id r)) rows.

Definition getEventRegistrations (eventId : num) : Promise (list Registration.t) :=
  statement (fun d => (Resolved (rows_of_event eventId (registrations d)), d)).

(** SQL [SUM]: NULL when there is no row. *)
Definition sql_sum (xs : list Z) : option Z :=
  match xs with
  | [] => None
  | _ => Some (fold_right Z.add 0 xs)
  end.

(** [row.total || 0] *)
Definition getEventAttendeeCount (eventId : num) : Promise Z :=
  statement (fun d =>
    let total := sql_sum (map Registration.tickets
                              (rows_of_event eventId (registrations d))) in
    (Resolved (match total with
               | Some t => if t =? 0 then 0 else t
               | None => 0
               end), d)).

(** ** The HTTP handlers *)

Inductive Json : Type :=
| ErrorJson (error : string)
| MessageJson (message : string)
| EventsJson (rows : list Event.t)
| EventJson (row : Event.t)
| CreatedEventJson (ev : CreatedEvent.t)
| RegistrationsJson (rows : list Registration.t)
| RegisteredJson (message : string) (registration : CreatedRegistration.t)
                 (event : Event.t).

Record Response : Type := mkResponse {
  status : Z;
  body : Json
}.

(** The body of an [async] handler either goes on with a value, has sent
    its response and returned, or has thrown out of an [await]. *)
Inductive Outcome (A : Type) : Type :=
| Value (a : A)
| Return (r : Response)
| Throw (err : StorageError).
Arguments Value {A} a.
Arguments Return {A} r.
Arguments Throw {A} err.

Definition Handler (A : Type) : Type := World -> Outcome A * World.

Definition await {A : Type} (p : Promise A) : Handler A :=
  fun w =>
    match p w with
    | (Resolved a, w1) => (Value a, w1)
    | (Rejected err, w1) => (Throw err, w1)
    end.

Definition bindH {A B : Type} (h : Handler A) (k : A -> Handler B) : Handler B :=
  fun w =>
    match h w with
    | (Value a, w1) => k a w1
    | (Return r, w1) => (Return r, w1)
    | (Throw err, w1) => (Throw err, w1)
    end.

Definition respond {A : Type} (code : Z) (j : Json) : Handler A :=
  fun w => (Return (mkResponse code j), w).

Notation "x <- h ;; k" := (bindH h (fun x => k))
  (at level 61, h at next level, right associativity).

(** [try { ... } catch (error) { res.status(500).json({ error }) }] *)
Definition try_catch (h : Handler Response) (error : string)
  : World -> Response * World :=
  fun w =>
    match h w with
    | (Value r, w1) => (r, w1)
    | (Return r, w1) => (r, w1)
    | (Throw _, w1) => (mkResponse 500 (ErrorJson error), w1)
    end.

(** GET /api/events *)
Definition get_events (category : JsVal) : World -> Response * World :=
  try_catch
    (events <- await (getAllEvents category) ;;
     respond 200 (EventsJson events))
    "Failed to fetch events".

(** GET /api/events/:id *)
Definition get_event (id : string) : World -> Response * World :=
  try_catch
    (event <- await (getEventById (parseInt (JStr id))) ;;
     match event with
     | None => respond 404 (ErrorJson "Event not found")
     | Some event => respond 200 (EventJson event)
     end)
    "Failed to fetch event".

(** DELETE /api/events/:id *)
Definition delete_event (id : string) : World -> Response * World :=
  try_catch
    (let eventId := parseInt (JStr id) in
     deletedCount <- await (deleteEvent eventId) ;;
     if deletedCount =? 0
     then respond 404 (ErrorJson "Event not found")
     else respond 200 (MessageJson "Event deleted successfully"))
    "Failed to delete event".

(** GET /api/events/:id/registrations *)
Definition get_registrations (id : string) : World -> Response * World :=
  try_catch
    (registrations <- await (getEventRegistrations (parseInt (JStr id))) ;;
     respond 200 (RegistrationsJson registrations))
    "Failed to fetch registrations".

Module RegBody.
(** The fields read from the body of POST /api/registrations. *)
Record t : Type := mk {
  firstName : JsVal;
  lastName : JsVal;
  email : JsVal;
  phone : JsVal;
  eventId : JsVal;
  tickets : JsVal;
  comments : JsVal
}.
End RegBody.

(** [!firstName || !lastName || !email || !phone || !eventId || !tickets] *)
Definition registration_invalid (b : RegBody.t) : bool :=
  negb (truthy (RegBody.firstName b)) || negb (truthy (RegBody.lastName b))
  || negb (truthy (RegBody.email b)) || negb (truthy (RegBody.phone b))
  || negb (truthy (RegBody.eventId b)) || negb (truthy (RegBody.tickets b)).

Definition registration_data (b : RegBody.t) : RegistrationData.t :=
  RegistrationData.mk (parseInt (RegBody.eventId b)) (RegBody.firstName b)
    (RegBody.lastName b) (RegBody.email b) (RegBody.phone b)
    (parseInt (RegBody.tickets b)) (js_or (RegBody.comments b) (JStr "")).

Definition validation_error : Response :=
  mkResponse 400 (ErrorJson "All required fields must be filled").

Definition not_found_error : Response :=
  mkResponse 404 (ErrorJson "Event not found").

Definition capacity_error (remaining : Z) : Response :=
  mkResponse 400
    (ErrorJson ("Only " ++ show_Z remaining ++ " tickets available for this event")).

Definition registered (registration : CreatedRegistration.t) (event : Event.t)
    (newAttendeeCount : num) : Response :=
  mkResponse 201
    (RegisteredJson "Registration successful" registration
       (Event.set_attendees (bindInt newAttendeeCount) event)).

(** The [try] block of POST /api/registrations. *)
Definition register (b : RegBody.t) : Handler Response :=
  if registration_invalid b
  then fun w => (Return validation_error, w)
  else
    event <- await (getEventById (parseInt (RegBody.eventId b))) ;;
    match event with
    | None => fun w => (Return not_found_error, w)
    | Some event =>
        currentAttendees <-
          await (getEventAttendeeCount (parseInt (RegBody.eventId b))) ;;
        if num_gt (num_add (Num currentAttendees) (parseInt (RegBody.tickets b)))
                  (Num (Event.capacity event))
        then fun w =>
               (Return (capacity_error (Event.capacity event - currentAttendees)), w)
        else
          registration <- await (createRegistration (registration_data b)) ;;
          let newAttendeeCount :=
            num_add (Num currentAttendees) (parseInt (RegBody.tickets b)) in
          _ <- await (updateEventAttendees (parseInt (RegBody.eventId b))
                                           newAttendeeCount) ;;
          fun w => (Return (registered registration event newAttendeeCount), w)
    end.

(** POST /api/registrations *)
Definition post_registration (b : RegBody.t) : World -> Response * World :=
  try_catch (register b) "Failed to create registration".

Module EventBody.
(** The fields read from the body of POST /api/events. *)
Record t : Type := mk {
  title : JsVal;
  description : JsVal;
  date : JsVal;
  time : JsVal;
  location : JsVal;
  capacity : JsVal;
  category : JsVal;
  image : JsVal;
  price : JsVal
}.
End EventBody.

(** [!title || !description || !date || !time || !location || !capacity || !category] *)
Definition event_invalid (b : EventBody.t) : bool :=
  negb (truthy (EventBody.title b)) || negb (truthy (EventBody.description b))
  || negb (truthy (EventBody.date b)) || negb (truthy (EventBody.time b))
  || negb (truthy (EventBody.location b)) || negb (truthy (EventBody.capacity b))
  || negb (truthy (EventBody.category b)).

Section CreateEventHandler.

(** The builtin [parseFloat]; [None] is NaN.  Nothing below depends on
    which rational it reads from a string. *)
Variable parseFloat : JsVal -> option Q.

Definition event_data (b : EventBody.t) : EventData.t :=
  EventData.mk (EventBody.title b) (EventBody.description b) (EventBody.date b)
    (EventBody.time b) (EventBody.location b) (parseInt (EventBody.capacity b))
    (EventBody.category b) (EventBody.image b)
    (if truthy (EventBody.price b) then parseFloat (EventBody.price b)
     else Some 0%Q).

(** POST /api/events *)
Definition post_event (b : EventBody.t) : World -> Response * World :=
  try_catch
    (if event_invalid b
     then respond 400 (ErrorJson "All fields are required")
     else
       newEvent <- await (createEvent (event_data b)) ;;
       respond 201 (CreatedEventJson newEvent))
    "Failed to create event".

End CreateEventHandler.

(** ** Requests served one after the other *)


(** ** Requests served concurrently

    A handler runs without interruption from one [await] to the next; the
    event loop may run another handler in between.  A task is a handler
    suspended on the statement it has issued, with its local variables. *)

Inductive RegTask : Type :=
| PendingEvent (b : RegBody.t)
| PendingCount (b : RegBody.t) (event : Event.t)
| PendingInsert (b : RegBody.t) (event : Event.t) (currentAttendees : Z)
| PendingUpdate (b : RegBody.t) (event : Event.t) (currentAttendees : Z)
                (registration : CreatedRegistration.t)
| Finished (r : Response).

Definition registration_failed : Response :=
  mkResponse 500 (ErrorJson "Failed to create registration").

Definition start_registration (b : RegBody.t) : RegTask :=
  if registration_invalid b then Finished validation_error else PendingEvent b.

(** The pending statement runs and the handler continues to its next
    [await] or to its response. *)
Definition step_registration (t : RegTask) (w : World) : RegTask * World :=
  match t with
  | PendingEvent b =>
      match getEventById (parseInt (RegBody.eventId b)) w with
      | (Resolved (Some event), w1) => (PendingCount b event, w1)
      | (Resolved None, w1) => (Finished not_found_error, w1)
      | (Rejected _, w1) => (Finished registration_failed, w1)
      end
  | PendingCount b event =>
      match getEventAttendeeCount (parseInt (RegBody.eventId b)) w with
      | (Resolved currentAttendees, w1) =>
          if num_gt (num_add (Num currentAttendees) (parseInt (RegBody.tickets b)))
                    (Num (Event.capacity event))
          then (Finished (capacity_error (Event.capacity event - currentAttendees)), w1)
          else (PendingInsert b event currentAttendees, w1)
      | (Rejected _, w1) => (Finished registration_failed, w1)
      end
  | PendingInsert b event currentAttendees =>
      match createRegistration (registration_data b) w with
      | (Resolved registration, w1) =>
          (PendingUpdate b event currentAttendees registration, w1)
      | (Rejected _, w1) => (Finished registration_failed, w1)
      end
  | PendingUpdate b event currentAttendees registration =>
      let newAttendeeCount :=
        num_add (Num currentAttendees) (parseInt (RegBody.tickets b)) in
      match updateEventAttendees (parseInt (RegBody.eventId b)) newAttendeeCount w with
      | (Resolved _, w1) => (Finished (registered registration event newAttendeeCount), w1)
      | (Rejected _, w1) => (Finished registration_failed, w1)
      end
  | Finished r => (t, w)
  end.

Fixpoint run_registration (fuel : nat) (t : RegTask) (w : World) : RegTask * World :=
  match fuel with
  | O => (t, w)
  | S n => let (t1, w1) := step_registration t w in run_registration n t1 w1
  end.

(** Two requests in flight on the one connection. *)
Record System : Type := mkSystem {
  first : RegTask;
  second : RegTask;
  world : World
}.

Inductive Turn : Type := First | Second.

Definition step_system (s : System) (t : Turn) : System :=
  match t with
  | First => let (t1, w1) := step_registration (first s) (world s) in
             mkSystem t1 (second s) w1
  | Second => let (t2, w1) := step_registration (second s) (world s) in
              mkSystem (first s) t2 w1
  end.

Definition run_system (schedule : list Turn) (s : System) : System :=
  fold_left step_system schedule s.

(** The tickets held against an event. *)
Definition tickets_of_event (eventId : Z) (d : DB) : Z :=
  fold_right Z.add 0
    (map Registration.tickets (rows_of_event (Num eventId) (registrations d))).

(** The store after [insertSampleData] on an empty database. *)
Definition seeded : World :=
  snd (insertSampleData (mkWorld empty_db [])).

(** ** Vocabulary of the properties *)

(** The number written by a sequence of decimal digits, read after [acc]. *)
Fixpoint digits_value (d : Decimal.uint) (acc : Z) : Z :=
  match d with
  | Decimal.Nil => acc
  | Decimal.D0 l => digits_value l (10 * acc)
  | Decimal.D1 l => digits_value l (10 * acc + 1)
  | Decimal.D2 l => digits_value l (10 * acc + 2)
  | Decimal.D3 l => digits_value l (10 * acc + 3)
  | Decimal.D4 l => digits_value l (10 * acc + 4)
  | Decimal.D5 l => digits_value l (10 * acc + 5)
  | Decimal.D6 l => digits_value l (10 * acc + 6)
  | Decimal.D7 l => digits_value l (10 * acc + 7)
  | Decimal.D8 l => digits_value l (10 * acc + 8)
  | Decimal.D9 l => digits_value l (10 * acc + 9)
  end.

Definition required_fields (b : RegBody.t) : list JsVal :=
  [ RegBody.firstName b; RegBody.lastName b; RegBody.email b;
    RegBody.phone b; RegBody.eventId b; RegBody.tickets b ].

(** The engine raises no fault on the next [n] statements. *)
Definition fault_free (n : nat) (w : World) : bool :=
  forallb negb (firstn n (faults w)).

Definition event_with_id (eventId : Z) (d : DB) : option Event.t :=
  find (fun e => Event.id e =? eventId) (events d).

(** The effect of the INSERT of a registration and of the UPDATE of the
    counter on the database. *)
Definition store_registration (row : Registration.t) (d : DB) : DB :=
  mkDB (events d) (registrations d ++ [row]) (events_seq d)
       (registrations_seq d + 1).

Definition store_attendees (eventId : Z) (n : Z) (d : DB) : DB :=
  mkDB (map (fun e => if Event.id e =? eventId
                      then Event.set_attendees (Some n) e else e) (events d))
       (registrations d) (events_seq d) (registrations_seq d).

(** Two events, two databases, two stores that differ at most in the
    [attendees] column of [events]. *)
Definition same_event (e1 e2 : Event.t) : Prop :=
  Event.set_attendees None e1 = Event.set_attendees None e2.







(** The primary key of [events]: ids are distinct and were all drawn from
    the sequence. *)
Definition events_keyed (d : DB) : Prop :=
  NoDup (map Event.id (events d))
  /\ Forall (fun e => Event.id e <= events_seq d) (events d).


(** A computation that maintains a property of the database. *)
Definition keeps {A : Type} (P : DB -> Prop) (h : World -> A * World) : Prop :=
  forall w, P (db w) -> P (db (snd (h w))).

(** The invariant of the registrations: no event holds more tickets than
    its capacity. *)
Definition within_capacity (d : DB) : Prop :=
  Forall (fun e => tickets_of_event (Event.id e) d <= Event.capacity e) (events d).

(** *** Concrete requests and stores *)

Definition request (eventId tickets : JsVal) : RegBody.t :=
  RegBody.mk (JStr "Asha") (JStr "Rao") (JStr "asha@example.org")
    (JStr "5550100") eventId tickets JUndefined.

(** A new event described without image and without price. *)
Definition meetup : EventBody.t :=
  EventBody.mk (JStr "Proof Engineering Meetup") (JStr "An evening of talks.")
    (JStr "2026-01-20") (JStr "18:30") (JStr "Pune, Maharashtra") (JStr "40")
    (JStr "tech") JUndefined JUndefined.

(** An event for ten people, created through the API as event 4, with
    eight tickets booked. *)
Definition hall : EventBody.t :=
  EventBody.mk (JStr "Reading Group") (JStr "Weekly session.")
    (JStr "2026-02-03") (JStr "17:00") (JStr "Chennai, Tamil Nadu") (JNum 10)
    (JStr "education") JUndefined (JNum 0).

Definition small_hall : World :=
  snd (post_registration (request (JNum 4) (JNum 8))
         (snd (post_event (fun _ => None) hall seeded))).

(** The seeded store after twenty tickets were booked for event 3. *)
Definition booked : World :=
  snd (post_registration (request (JNum 3) (JNum 20)) seeded).

(** ** Start-up and the API as a whole *)

Definition getEventCount : Promise Z :=
  statement (fun d => (Resolved (Z.of_nat (List.length (events d))), d)).

(** A promise is settled, or stays pending for ever. *)
Inductive Settled (A : Type) : Type :=
| Settles (r : Result A)
| Pending.
Arguments Settles {A} r.
Arguments Pending {A}.

(** [initDatabase].  The two CREATE TABLE IF NOT EXISTS statements change
    no row.  The callback of the second is an [async] function: when an
    [await] inside it throws, neither [resolve] nor [reject] is called and
    the promise of [initDatabase] never settles. *)
Definition initDatabase : World -> Settled unit * World :=
  fun w =>
    match statement (fun d => (Resolved tt, d)) w with
    | (Rejected err, w1) => (Settles (Rejected err), w1)
    | (Resolved _, w1) =>
        match statement (fun d => (Resolved tt, d)) w1 with
        | (Rejected err, w2) => (Settles (Rejected err), w2)
        | (Resolved _, w2) =>
            match getEventCount w2 with
            | (Rejected _, w3) => (Pending, w3)
            | (Resolved eventCount, w3) =>
                if eventCount =? 0
                then match insertSampleData w3 with
                     | (Rejected _, w4) => (Pending, w4)
                     | (Resolved _, w4) => (Settles (Resolved tt), w4)
                     end
                else (Settles (Resolved tt), w3)
            end
        end
    end.

(** The row written for a sample event under a given id. *)
Definition sample_row (lastID : Z) (ev : SampleEvent.t) : Event.t :=
  Event.mk lastID (SampleEvent.title ev) (SampleEvent.description ev)
    (SampleEvent.date ev) (SampleEvent.time ev) (SampleEvent.location ev)
    (SampleEvent.capacity ev) (Some (SampleEvent.attendees ev))
    (SampleEvent.category ev) (Some (SampleEvent.image ev))
    (Some (SampleEvent.price ev)).

(** A request to one of the routes that touch the database. *)
Inductive Request : Type :=
| GetEvents (category : JsVal)
| GetEvent (id : string)
| PostEvent (b : EventBody.t)
| DeleteEvent (id : string)
| PostRegistration (b : RegBody.t)
| GetRegistrations (id : string).

Section Api.

Variable parseFloat : JsVal -> option Q.

Definition route (rq : Request) : World -> Response * World :=
  match rq with
  | GetEvents category => get_events category
  | GetEvent id => get_event id
  | PostEvent b => post_event parseFloat b
  | DeleteEvent id => delete_event id
  | PostRegistration b => post_registration b
  | GetRegistrations id => get_registrations id
  end.

(** The store after the requests were served one after the other. *)
Fixpoint run (requests : list Request) (w : World) : World :=
  match requests with
  | [] => w
  | rq :: rest => run rest (snd (route rq w))
  end.

End Api.

(** ** The CSV export *)

Inductive ExportResponse : Type :=
| ExportJson (r : Response)
| ExportCsv (filename : string) (content : string).

Definition line_feed : ascii := "010"%char.

Definition double_quote : ascii := "034"%char.

(** A number inside a template literal. *)
Definition show_num (n : num) : string :=
  match n with
  | NaN => "NaN"
  | Num z => show_Z z
  end.

(** The field between double quotes, as it is: nothing is escaped. *)
Definition quoted (s : string) : string :=
  String double_quote (s ++ String double_quote "")%string.

Definition csv_header : string :=
  "First Name,Last Name,Email,Phone,Tickets,Registration Date,Comments".

Section CsvExport.

(** The column [registration_date] of a row, filled by the engine when
    the row was inserted. *)
Variable registration_date : Registration.t -> string.

Definition csv_row (reg : Registration.t) : string :=
  String.concat ","
    [ quoted (Registration.first_name reg);
      quoted (Registration.last_name reg);
      quoted (Registration.email reg);
      quoted (Registration.phone reg);
      show_Z (Registration.tickets reg);
      registration_date reg;
      quoted (match Registration.comments reg with
              | Some c => c
              | None => ""
              end) ].

Definition csv_rows (registrations : list Registration.t) : string :=
  fold_right (fun reg rest => (csv_row reg ++ String line_feed rest)%string)
             "" registrations.

Definition csv_content (event : Event.t) (registrations : list Registration.t)
  : string :=
  ("Event: " ++ Event.title event ++ String line_feed
   ("Date: " ++ Event.date event ++ " " ++ Event.time event ++ String line_feed
    ("Location: " ++ Event.location event ++ String line_feed
     ("Total Registrations: "
      ++ show_Z (Z.of_nat (List.length registrations))
      ++ String line_feed (String line_feed
          (csv_header ++ String line_feed (csv_rows registrations)))))))%string.

(** GET /api/events/:id/export *)
Definition export_event (id : string) : World -> ExportResponse * World :=
  fun w =>
    let eventId := parseInt (JStr id) in
    let failed := ExportJson (mkResponse 500 (ErrorJson "Failed to export event data")) in
    match getEventById eventId w with
    | (Rejected _, w1) => (failed, w1)
    | (Resolved None, w1) =>
        (ExportJson (mkResponse 404 (ErrorJson "Event not found")), w1)
    | (Resolved (Some event), w1) =>
        match getEventRegistrations eventId w1 with
        | (Rejected _, w2) => (failed, w2)
        | (Resolved registrations, w2) =>
            (ExportCsv ("event-" ++ show_num eventId ++ "-registrations.csv")
                       (csv_content event registrations), w2)
        end
    end.

End CsvExport.

(** The number of line feeds in a text. *)
Fixpoint line_feeds (s : string) : nat :=
  match s with
  | EmptyString => O
  | String c r => if Ascii.eqb c line_feed then S (line_feeds r) else line_feeds r
  end.

(** No text of the event and of its registrations holds a line feed. *)
Definition single_lines (registration_date : Registration.t -> string)
    (event : Event.t) (registrations : list Registration.t) : Prop :=
  line_feeds (Event.title event) = O /\ line_feeds (Event.date event) = O
  /\ line_feeds (Event.time event) = O /\ line_feeds (Event.location event) = O
  /\ Forall (fun reg =>
        line_feeds (Registration.first_name reg) = O
        /\ line_feeds (Registration.last_name reg) = O
        /\ line_feeds (Registration.email reg) = O
        /\ line_feeds (Registration.phone reg) = O
        /\ line_feeds (registration_date reg) = O
        /\ line_feeds (match Registration.comments reg with
                       | Some c => c
                       | None => ""
                       end) = O) registrations.

(** *** Invariants of the store *)

(** The primary key of [registrations]. *)
Definition registrations_keyed (d : DB) : Prop :=
  NoDup (map Registration.id (registrations d))
  /\ Forall (fun r => Registration.id r <= registrations_seq d) (registrations d).

(** Every registration refers to an event that exists. *)
Definition registrations_owned (d : DB) : Prop :=
  Forall (fun r => event_with_id (Registration.event_id r) d <> None)
         (registrations d).

(** No event holds more tickets than its capacity, or than none when its
    capacity is negative. *)
Definition capped (d : DB) : Prop :=
  Forall (fun e => tickets_of_event (Event.id e) d <= Z.max 0 (Event.capacity e))
         (events d).

Definition consistent (d : DB) : Prop :=
  events_keyed d /\ registrations_keyed d /\ registrations_owned d /\ capped d.

(** The effect on the database of the INSERT of an event and of the two
    DELETE statements. *)
Definition with_event (row : Event.t) (d : DB) : DB :=
  mkDB (events d ++ [row]) (registrations d) (events_seq d + 1)
       (registrations_seq d).

Definition without_registrations (eventId : num) (d : DB) : DB :=
  mkDB (events d)
       (filter (fun r => negb (id_is eventId (Registration.event_id r)))
               (registrations d))
       (events_seq d) (registrations_seq d).

Definition without_event (eventId : num) (d : DB) : DB :=
  mkDB (filter (fun e => negb (id_is eventId (Event.id e))) (events d))
       (registrations d) (events_seq d) (registrations_seq d).

(** The text stored for a request field. *)
Definition text_of (v : JsVal) : string :=
  match bindText v with
  | Some s => s
  | None => ""
  end.

(** *** More concrete requests *)

Definition required_event_fields (b : EventBody.t) : list JsVal :=
  [ EventBody.title b; EventBody.description b; EventBody.date b;
    EventBody.time b; EventBody.location b; EventBody.capacity b;
    EventBody.category b ].

(** [meetup] with another capacity field. *)
Definition meetup_for (capacity : JsVal) : EventBody.t :=
  EventBody.mk (EventBody.title meetup) (EventBody.description meetup)
    (EventBody.date meetup) (EventBody.time meetup) (EventBody.location meetup)
    capacity (EventBody.category meetup) JUndefined JUndefined.

(** An afternoon of requests on the seeded store: a new event (4) is
    created and filled, one ticket too many is asked, event 3 is deleted,
    another event (5) is created, the events are listed. *)
Definition afternoon : list Request :=
  [ PostEvent meetup;
    PostRegistration (request (JNum 4) (JStr "40"));
    PostRegistration (request (JNum 4) (JNum 1));
    PostRegistration (request (JNum 3) (JNum 2));
    DeleteEvent "3";
    PostEvent hall;
    GetEvents (JStr "tech") ].

(** * Properties *)

(** ** The builtins *)

Example parseInt_examples :
  parseInt (JStr "42") = Num 42 /\ parseInt (JStr "  -7px") = Num (-7) /\
  parseInt (JStr "0x1F") = Num 31 /\ parseInt (JStr "abc") = NaN /\
  parseInt (JNum (-12)) = Num (-12) /\ parseInt (JStr "") = NaN /\
  parseInt JUndefined = NaN /\ parseInt (JStr "0") = Num 0.
Proof. repeat split; vm_compute; reflexivity. Qed.

Lemma parseDigits_decimal (d : Decimal.uint) (acc : Z) :
  parseDigits 10 (NilEmpty.string_of_uint d) (Some acc) = Some (digits_value d acc).
Proof.
  revert acc. induction d as [|d IH|d IH|d IH|d IH|d IH|d IH|d IH|d IH|d IH|d IH];
    intros acc; cbn [NilEmpty.string_of_uint parseDigits digits_value];
    [reflexivity| change (digitValue 10 _) with (Some 0) | change (digitValue 10 _) with (Some 1)
     | change (digitValue 10 _) with (Some 2) | change (digitValue 10 _) with (Some 3)
     | change (digitValue 10 _) with (Some 4) | change (digitValue 10 _) with (Some 5)
     | change (digitValue 10 _) with (Some 6) | change (digitValue 10 _) with (Some 7)
     | change (digitValue 10 _) with (Some 8) | change (digitValue 10 _) with (Some 9)];
    cbv beta iota; rewrite IH; try reflexivity.
  f_equal. f_equal. lia.
Qed.

Lemma digits_value_pos (d : Decimal.uint) (p : positive) :
  digits_value d (Z.pos p) = Z.pos (Pos.of_uint_acc d p).
Proof.
  revert p. induction d as [|d IH|d IH|d IH|d IH|d IH|d IH|d IH|d IH|d IH|d IH];
    intros p; cbn [digits_value Pos.of_uint_acc]; try reflexivity;
    rewrite <- IH; f_equal; lia.
Qed.

Lemma digits_value_zero (d : Decimal.uint) :
  digits_value d 0 = Z.of_N (Pos.of_uint d).
Proof.
  induction d as [|d IH|d IH|d IH|d IH|d IH|d IH|d IH|d IH|d IH|d IH];
    cbn [digits_value Pos.of_uint]; try reflexivity.
  all: try (simpl (10 * 0 + _); rewrite digits_value_pos; reflexivity).
  exact IH.
Qed.

Lemma parseIntString_decimal (d : Decimal.uint) :
  parseIntString (NilZero.string_of_uint d) = Num (Z.of_N (Pos.of_uint d))
  /\ parseIntString (String "-" (NilZero.string_of_uint d))
     = Num (- Z.of_N (Pos.of_uint d)).
Proof.
  rewrite <- digits_value_zero.
  assert (H : parseDigits 10 (NilZero.string_of_uint d) None
              = Some (digits_value d 0)).
  { destruct d; try reflexivity;
      cbn [NilZero.string_of_uint NilEmpty.string_of_uint parseDigits digits_value];
      match goal with
      | |- context [digitValue 10 ?c] =>
          let v := eval vm_compute in (digitValue 10 c) in
          change (digitValue 10 c) with v
      end; cbv beta iota; rewrite parseDigits_decimal; reflexivity. }
  assert (Hhex : stripHexPrefix (NilZero.string_of_uint d)
                 = (10, NilZero.string_of_uint d)).
  { destruct d as [|l|l|l|l|l|l|l|l|l|l]; try reflexivity.
    destruct l; reflexivity. }
  unfold parseIntString. split.
  - replace (stripSign (trimStart (NilZero.string_of_uint d)))
      with (1, NilZero.string_of_uint d) by (destruct d; reflexivity).
    cbv beta iota. rewrite Hhex, H. f_equal; lia.
  - change (stripSign (trimStart (String "-" (NilZero.string_of_uint d))))
      with (-1, NilZero.string_of_uint d).
    cbv beta iota. rewrite Hhex, H. f_equal; lia.
Qed.

(** [parseInt] of a number is that number: printing it in decimal and
    reading the digits back loses nothing. *)
Lemma parseInt_number (z : Z) : parseInt (JNum z) = Num z.
Proof.
  unfold parseInt, toString, show_Z.
  destruct z as [|p|p]; [reflexivity| |]; cbn [Z.to_int NilZero.string_of_int].
  - rewrite (proj1 (parseIntString_decimal _)), DecimalPos.Unsigned.of_to.
    reflexivity.
  - rewrite (proj2 (parseIntString_decimal _)), DecimalPos.Unsigned.of_to.
    reflexivity.
Qed.


Lemma js_or_truthy (a b : JsVal) : truthy b = true -> truthy (js_or a b) = true.
Proof. unfold js_or. destruct (truthy a) eqn:E; auto. Qed.

(** ** Statements *)

Lemma statement_fault {A : Type} (q : DB -> Result A * DB) (w : World) :
  hd false (faults w) = true ->
  statement q w = (Rejected EngineFault, mkWorld (db w) (tl (faults w))).
Proof. unfold statement. intros ->. reflexivity. Qed.

Lemma statement_runs {A : Type} (q : DB -> Result A * DB) (w : World) :
  hd false (faults w) = false ->
  statement q w = (fst (q (db w)), mkWorld (snd (q (db w))) (tl (faults w))).
Proof. unfold statement. intros ->. destruct (q (db w)); reflexivity. Qed.

Lemma fault_free_S (n : nat) (w : World) :
  fault_free (S n) w = true ->
  hd false (faults w) = false
  /\ forall d, fault_free n (mkWorld d (tl (faults w))) = true.
Proof.
  unfold fault_free. destruct (faults w) as [|f fs]; simpl.
  - intros _. split; [reflexivity|]. intros _. destruct n; reflexivity.
  - intros H. apply andb_true_iff in H. destruct H as [Hf Hfs].
    split; [destruct f; [discriminate | reflexivity] | intros _; exact Hfs].
Qed.

Lemma fault_free_two_of_four (w : World) :
  fault_free 4 w = true -> fault_free 2 w = true.
Proof.
  unfold fault_free. destruct (faults w) as [|f1 [|f2 fs]]; simpl; auto.
  intros H. apply andb_true_iff in H. destruct H as [H1 H].
  apply andb_true_iff in H. destruct H as [H2 _]. rewrite H1, H2. reflexivity.
Qed.

Lemma find_none_false {A : Type} (l : list A) : find (fun _ => false) l = None.
Proof. induction l; simpl; auto. Qed.

(** [row.total || 0] is the plain sum of the tickets. *)
Lemma total_or_zero (l : list Z) :
  match sql_sum l with
  | Some t => if t =? 0 then 0 else t
  | None => 0
  end = fold_right Z.add 0 l.
Proof.
  destruct l as [|x l]; [reflexivity|].
  unfold sql_sum. destruct (_ =? 0) eqn:E; [apply Z.eqb_eq in E; lia | reflexivity].
Qed.


Lemma registration_row_NaN (lastID : Z) (rd : RegistrationData.t) :
  RegistrationData.tickets rd = NaN -> registration_row lastID rd = None.
Proof.
  intros H. unfold registration_row. rewrite H. cbn [bindInt].
  destruct (bindInt (RegistrationData.eventId rd)),
    (bindText (RegistrationData.firstName rd)),
    (bindText (RegistrationData.lastName rd)),
    (bindText (RegistrationData.email rd)),
    (bindText (RegistrationData.phone rd)); reflexivity.
Qed.

Lemma registration_row_fields (lastID : Z) (rd : RegistrationData.t)
    (row : Registration.t) :
  registration_row lastID rd = Some row ->
  Registration.id row = lastID
  /\ RegistrationData.eventId rd = Num (Registration.event_id row)
  /\ RegistrationData.tickets rd = Num (Registration.tickets row).
Proof.
  unfold registration_row.
  destruct (RegistrationData.eventId rd) as [|ev]; cbn [bindInt]; [discriminate|].
  destruct (bindText (RegistrationData.firstName rd)); [|discriminate].
  destruct (bindText (RegistrationData.lastName rd)); [|discriminate].
  destruct (bindText (RegistrationData.email rd)); [|discriminate].
  destruct (bindText (RegistrationData.phone rd)); [|discriminate].
  destruct (RegistrationData.tickets rd) as [|t]; cbn [bindInt]; [discriminate|].
  intros H. inversion H; subst; clear H. simpl. auto.
Qed.

(** ** The registration handler, case by case *)



Lemma sum_snoc (l : list Z) (x : Z) :
  fold_right Z.add 0 (l ++ [x]) = fold_right Z.add 0 l + x.
Proof. induction l as [|y l IH]; simpl; lia. Qed.


Lemma tickets_other_event (id other n : Z) (row : Registration.t) (d : DB) :
  Registration.event_id row = id -> other <> id ->
  tickets_of_event other (store_attendees id n (store_registration row d))
  = tickets_of_event other d.
Proof.
  intros Hrow Hne. unfold tickets_of_event, rows_of_event. simpl.
  rewrite filter_app. simpl. rewrite Hrow.
  destruct (id =? other) eqn:E; [apply Z.eqb_eq in E; congruence|].
  rewrite app_nil_r. reflexivity.
Qed.












(** Capacity 10 with 8 tickets held: 2 more are accepted and fill the
    event, after which 1 more is refused with 0 remaining. *)
Example full_house :
  tickets_of_event 4 (db small_hall) = 8
  /\ status (fst (post_registration (request (JNum 4) (JNum 2)) small_hall)) = 201
  /\ tickets_of_event 4
       (db (snd (post_registration (request (JNum 4) (JNum 2)) small_hall))) = 10
  /\ fst (post_registration (request (JNum 4) (JNum 1))
            (snd (post_registration (request (JNum 4) (JNum 2)) small_hall)))
     = mkResponse 400 (ErrorJson "Only 0 tickets available for this event").
Proof. vm_compute. repeat split; reflexivity. Qed.

(** ** Validation *)

Lemma falsy_field_invalid (b : RegBody.t) :
  Exists (fun v => truthy v = false) (required_fields b) ->
  registration_invalid b = true.
Proof.
  unfold required_fields, registration_invalid. intros H.
  repeat match goal with
         | H : Exists _ (_ :: _) |- _ =>
             let E := fresh in
             inversion_clear H as [? ? E | ? ? E]; [rewrite E|]
         | H : Exists _ [] |- _ => inversion H
         end; simpl; rewrite ?orb_true_r; reflexivity.
Qed.

(** C8.  When a required field of a registration request is missing
    (undefined) or otherwise falsy, the answer is the validation failure,
    sent before any statement is issued: the database and the pending
    faults of the engine are exactly as before.  That answer differs from
    the not-found answer and from every capacity answer. *)
Theorem missing_field_rejected (b : RegBody.t) (w : World) :
  Exists (fun v => truthy v = false) (required_fields b) ->
  post_registration b w = (validation_error, w)
  /\ validation_error = mkResponse 400 (ErrorJson "All required fields must be filled")
  /\ validation_error <> not_found_error
  /\ (forall remaining : Z, validation_error <> capacity_error remaining).
Proof.
  intros H. apply falsy_field_invalid in H.
  unfold post_registration, register, try_catch. rewrite H.
  repeat split; try discriminate.
Qed.

(** A request for event 3 that carries no phone number. *)
Lemma missing_field_rejected_witness :
  post_registration
    (RegBody.mk (JStr "Asha") (JStr "Rao") (JStr "asha@example.org")
       JUndefined (JNum 3) (JNum 2) JUndefined) seeded
  = (validation_error, seeded).
Proof.
  apply (missing_field_rejected
           (RegBody.mk (JStr "Asha") (JStr "Rao") (JStr "asha@example.org")
              JUndefined (JNum 3) (JNum 2) JUndefined) seeded).
  unfold required_fields. simpl.
  apply Exists_cons_tl, Exists_cons_tl, Exists_cons_tl, Exists_cons_hd.
  reflexivity.
Defined.

(** Against C10 as worded, which ends on: no registration for zero
    tickets can be made.  The string "0" is truthy and parses to 0: the
    request is accepted and a row holding zero tickets is written. *)
Lemma zero_tickets_registered :
  truthy (JStr "0") = true
  /\ status (fst (post_registration (request (JNum 3) (JStr "0")) seeded)) = 201
  /\ map Registration.tickets
       (registrations (db (snd (post_registration (request (JNum 3) (JStr "0")) seeded))))
     = [0].
Proof. vm_compute. repeat split; reflexivity. Qed.

(** C10, amended.  A request whose tickets field is falsy (the number 0,
    the empty string, null, false, or no field at all) gets the validation
    failure before the event is looked up: no statement is issued, no row
    is written, whether or not the event exists and has room. *)
Theorem falsy_tickets_rejected (b : RegBody.t) (w : World) :
  truthy (RegBody.tickets b) = false ->
  post_registration b w = (validation_error, w).
Proof.
  intros H. unfold post_registration, register, try_catch.
  rewrite falsy_field_invalid; [reflexivity|].
  unfold required_fields. do 5 apply Exists_cons_tl. apply Exists_cons_hd.
  exact H.
Qed.

(** Event 3 exists and is empty, yet a request whose tickets field is the
    number 0 is turned away at once. *)
Lemma falsy_tickets_rejected_witness :
  event_with_id 3 (db seeded) <> None
  /\ tickets_of_event 3 (db seeded) < 50
  /\ post_registration (request (JNum 3) (JNum 0)) seeded = (validation_error, seeded).
Proof.
  split; [vm_compute; discriminate|]. split; [vm_compute; reflexivity|].
  apply (falsy_tickets_rejected (request (JNum 3) (JNum 0)) seeded).
  reflexivity.
Defined.

(** ** The capacity check does not read the cached counter *)

Lemma same_event_fields (e1 e2 : Event.t) :
  same_event e1 e2 ->
  Event.id e1 = Event.id e2 /\ Event.capacity e1 = Event.capacity e2
  /\ forall a, Event.set_attendees a e1 = Event.set_attendees a e2.
Proof.
  unfold same_event. intros H.
  split; [exact (f_equal Event.id H)|].
  split; [exact (f_equal Event.capacity H)|].
  intros a.
  change (Event.set_attendees a (Event.set_attendees None e1)
          = Event.set_attendees a (Event.set_attendees None e2)).
  rewrite H. reflexivity.
Qed.















(** ** Deleting an event *)

(** Against C4 as worded.  The DELETE on [registrations] ran but the
    DELETE on [events] failed: the promise is rejected, event 3 is still
    there and the registration it had is gone. *)
Lemma deleteEvent_leaves_partial_state :
  let w := mkWorld (db booked) [false; true] in
  fst (deleteEvent (Num 3) w) = Rejected EngineFault
  /\ List.length (rows_of_event (Num 3) (registrations (db w))) = 1%nat
  /\ rows_of_event (Num 3) (registrations (db (snd (deleteEvent (Num 3) w)))) = []
  /\ event_with_id 3 (db (snd (deleteEvent (Num 3) w))) = event_with_id 3 (db w)
  /\ event_with_id 3 (db w) <> None
  /\ db (snd (deleteEvent (Num 3) w)) <> db w.
Proof.
  vm_compute. repeat split; try reflexivity; discriminate.
Qed.

Lemma filter_filter_negb {A : Type} (p : A -> bool) (l : list A) :
  filter p (filter (fun x => negb (p x)) l) = [].
Proof.
  induction l as [|x l IH]; simpl; [reflexivity|].
  destruct (p x) eqn:E; simpl; [exact IH | rewrite E; exact IH].
Qed.

Lemma find_filter_negb {A : Type} (p : A -> bool) (l : list A) :
  find p (filter (fun x => negb (p x)) l) = None.
Proof.
  induction l as [|x l IH]; simpl; [reflexivity|].
  destruct (p x) eqn:E; simpl; [exact IH | rewrite E; exact IH].
Qed.

(** C4, amended.  When either statement of [deleteEvent] fails, the
    promise is rejected.  A failure of the first statement leaves the
    database as it was.  A failure of the second leaves the events as they
    were, with the registrations of the event already removed: nothing
    undoes the first statement.  In no case is an event removed while
    registrations of it remain. *)
Theorem deleteEvent_failure (eventId : num) (w : World) :
  (hd false (faults w) = true ->
     deleteEvent eventId w
     = (Rejected EngineFault, mkWorld (db w) (tl (faults w))))
  /\ (hd false (faults w) = false -> hd false (tl (faults w)) = true ->
        fst (deleteEvent eventId w) = Rejected EngineFault
        /\ events (db (snd (deleteEvent eventId w))) = events (db w)
        /\ registrations (db (snd (deleteEvent eventId w)))
           = filter (fun r => negb (id_is eventId (Registration.event_id r)))
                    (registrations (db w)))
  /\ (events (db (snd (deleteEvent eventId w))) = events (db w)
      \/ rows_of_event eventId (registrations (db (snd (deleteEvent eventId w)))) = []).
Proof.
  split; [|split].
  - intros F1. unfold deleteEvent, bindP. rewrite statement_fault by exact F1.
    reflexivity.
  - intros F1 F2. unfold deleteEvent, bindP.
    rewrite statement_runs by exact F1. cbn [fst snd].
    rewrite statement_fault by exact F2. simpl. auto.
  - unfold deleteEvent, bindP, statement.
    destruct (hd false (faults w)); [left; reflexivity|]. right. cbn [faults db].
    destruct (hd false (tl (faults w))); cbn [snd db registrations];
      apply (filter_filter_negb (fun r => id_is eventId (Registration.event_id r))).
Qed.

Lemma deleteEvent_failure_witness :
  fst (deleteEvent (Num 3) (mkWorld (db booked) [false; true])) = Rejected EngineFault
  /\ events (db (snd (deleteEvent (Num 3) (mkWorld (db booked) [false; true]))))
     = events (db booked)
  /\ registrations (db (snd (deleteEvent (Num 3) (mkWorld (db booked) [false; true]))))
     = filter (fun r => negb (id_is (Num 3) (Registration.event_id r)))
              (registrations (db booked)).
Proof.
  apply (proj2 (deleteEvent_failure (Num 3) (mkWorld (db booked) [false; true])));
    reflexivity.
Defined.

(** Under the primary key at most one row has a given id. *)
Lemma at_most_one_event (id : num) (l : list Event.t) :
  NoDup (map Event.id l) ->
  List.length (filter (fun e => id_is id (Event.id e)) l)
  = if existsb (fun e => id_is id (Event.id e)) l then 1%nat else 0%nat.
Proof.
  destruct id as [|k]; simpl.
  { intros _. induction l; simpl; auto. }
  induction l as [|x l IH]; simpl; [reflexivity|].
  intros Hnd. inversion_clear Hnd as [|? ? Hnotin Hnd'].
  destruct (Event.id x =? k) eqn:E; simpl.
  - apply Z.eqb_eq in E. f_equal.
    assert (Hnone : existsb (fun e => Event.id e =? k) l = false).
    { destruct (existsb _ l) eqn:Hex; [|reflexivity].
      apply existsb_exists in Hex. destruct Hex as (y & Hy & Hk).
      apply Z.eqb_eq in Hk. exfalso. apply Hnotin. rewrite E, <- Hk.
      apply in_map. exact Hy. }
    rewrite (IH Hnd'), Hnone. reflexivity.
  - apply IH. exact Hnd'.
Qed.

(** C5.  When [deleteEvent] resolves, no registration of the event and no
    event with that id is left, so that listing its registrations gives
    the empty list and looking the event up gives nothing; the value is
    the number of event rows removed, 1 if the id existed and 0 if not. *)
Theorem deleteEvent_resolved (eventId : num) (w : World) (n : Z) (w' : World) :
  events_keyed (db w) ->
  deleteEvent eventId w = (Resolved n, w') ->
  rows_of_event eventId (registrations (db w')) = []
  /\ find (fun e => id_is eventId (Event.id e)) (events (db w')) = None
  /\ n = (if existsb (fun e => id_is eventId (Event.id e)) (events (db w))
          then 1 else 0)
  /\ (forall fs,
        fst (getEventRegistrations eventId (mkWorld (db w') (false :: fs)))
          = Resolved []
        /\ fst (getEventById eventId (mkWorld (db w') (false :: fs)))
          = Resolved None).
Proof.
  intros [Hnd _]. unfold deleteEvent, bindP, statement.
  destruct (hd false (faults w)); [discriminate|]. cbn [db faults].
  destruct (hd false (tl (faults w))); [discriminate|].
  cbn [events registrations]. intros H. inversion H; subst; clear H.
  cbn [db events registrations].
  assert (Hrows : rows_of_event eventId
            (filter (fun r => negb (id_is eventId (Registration.event_id r)))
                    (registrations (db w))) = []).
  { unfold rows_of_event.
    apply (filter_filter_negb (fun r => id_is eventId (Registration.event_id r))). }
  assert (Hfind : find (fun e => id_is eventId (Event.id e))
            (filter (fun e => negb (id_is eventId (Event.id e))) (events (db w))) = None).
  { apply (find_filter_negb (fun e => id_is eventId (Event.id e))). }
  split; [exact Hrows|]. split; [exact Hfind|]. split.
  - rewrite (at_most_one_event eventId _ Hnd).
    destruct (existsb _ _); reflexivity.
  - intros fs. unfold getEventRegistrations, getEventById, statement. simpl.
    fold (rows_of_event eventId
            (filter (fun r => negb (id_is eventId (Registration.event_id r)))
                    (registrations (db w)))).
    rewrite Hrows, Hfind. auto.
Qed.

Lemma deleteEvent_resolved_witness :
  rows_of_event (Num 3) (registrations (db (snd (deleteEvent (Num 3) booked)))) = []
  /\ find (fun e => id_is (Num 3) (Event.id e))
          (events (db (snd (deleteEvent (Num 3) booked)))) = None
  /\ 1 = (if existsb (fun e => id_is (Num 3) (Event.id e)) (events (db booked))
          then 1 else 0)
  /\ (forall fs,
        fst (getEventRegistrations (Num 3)
               (mkWorld (db (snd (deleteEvent (Num 3) booked))) (false :: fs)))
          = Resolved []
        /\ fst (getEventById (Num 3)
                  (mkWorld (db (snd (deleteEvent (Num 3) booked))) (false :: fs)))
          = Resolved None).
Proof.
  apply (deleteEvent_resolved (Num 3) booked 1 (snd (deleteEvent (Num 3) booked))).
  - split; [vm_compute; repeat constructor; simpl; intuition discriminate
           | vm_compute; repeat constructor; discriminate].
  - vm_compute. reflexivity.
Defined.


(** ** Listing events *)















(** ** Creating an event *)

(** What [createEvent] stores and what it hands back. *)
Lemma createEvent_resolved (ed : EventData.t) (w : World) (ev : CreatedEvent.t)
    (w' : World) :
  createEvent ed w = (Resolved ev, w') ->
  ev = CreatedEvent.mk (events_seq (db w) + 1) ed 0
  /\ exists row,
       events (db w') = events (db w) ++ [row]
       /\ registrations (db w') = registrations (db w)
       /\ events_seq (db w') = events_seq (db w) + 1
       /\ Event.id row = events_seq (db w) + 1
       /\ Event.attendees row = Some 0
       /\ Some (Event.capacity row) = bindInt (EventData.capacity ed)
       /\ Event.image row
          = bindText (js_or (EventData.image ed) (JStr placeholder_image))
       /\ Event.price row = Some (price_or_zero (EventData.price ed)).
Proof.
  unfold createEvent, statement.
  destruct (hd false (faults w)); [discriminate|].
  destruct (event_row (events_seq (db w) + 1) ed) as [row|] eqn:Hrow;
    [|discriminate].
  intros H. inversion H; subst; clear H. split; [reflexivity|].
  exists row. cbn [db events registrations events_seq].
  do 3 (split; [reflexivity|]).
  unfold event_row in Hrow.
  destruct (bindText (EventData.title ed)); [|discriminate].
  destruct (bindText (EventData.description ed)); [|discriminate].
  destruct (bindText (EventData.date ed)); [|discriminate].
  destruct (bindText (EventData.time ed)); [|discriminate].
  destruct (bindText (EventData.location ed)); [|discriminate].
  destruct (bindInt (EventData.capacity ed)); [|discriminate].
  destruct (bindText (EventData.category ed)); [|discriminate].
  inversion Hrow; subst; clear Hrow. simpl. auto.
Qed.

(** C7 at a request that names no image: the row written for the new
    event holds the placeholder URL, and the same price 0 and counter 0 as
    the record sent back, but the record sent back has no image at all. *)
Theorem created_event_lacks_default_image (parseFloat : JsVal -> option Q) :
  exists (ev : CreatedEvent.t) (row : Event.t),
    fst (post_event parseFloat meetup seeded)
      = mkResponse 201 (CreatedEventJson ev)
    /\ event_with_id (CreatedEvent.id ev)
         (db (snd (post_event parseFloat meetup seeded))) = Some row
    /\ CreatedEvent.attendees ev = 0 /\ Event.attendees row = Some 0
    /\ EventData.price (CreatedEvent.data ev) = Some 0%Q
    /\ Event.price row = Some 0%Q
    /\ Event.image row = Some placeholder_image
    /\ EventData.image (CreatedEvent.data ev) = JUndefined.
Proof.
  eexists. eexists.
  split; [vm_compute; reflexivity|].
  split; [vm_compute; reflexivity|].
  repeat split.
Qed.

(** ** Concurrent requests *)

Lemma run_finished (n : nat) (r : Response) (w : World) :
  run_registration n (Finished r) w = (Finished r, w).
Proof. induction n as [|n IH]; simpl; [reflexivity | exact IH]. Qed.

Lemma run_step (n : nat) (t : RegTask) (w : World) :
  run_registration (S n) t w
  = run_registration n (fst (step_registration t w)) (snd (step_registration t w)).
Proof. simpl. destruct (step_registration t w). reflexivity. Qed.

(** A task that runs alone, statement after statement, is the handler. *)
Lemma run_alone_is_handler (b : RegBody.t) (w : World) :
  run_registration 4 (start_registration b) w
  = (let (r, w') := post_registration b w in (Finished r, w')).
Proof.
  unfold start_registration, post_registration, register, try_catch.
  destruct (registration_invalid b); [apply run_finished|].
  rewrite run_step. cbn [step_registration].
  unfold bindH at 1. unfold await at 1.
  destruct (getEventById (parseInt (RegBody.eventId b)) w) as [[[e|]|err] w1];
    cbn [fst snd]; try apply (run_finished 3).
  rewrite run_step. cbn [step_registration].
  unfold bindH at 1. unfold await at 1.
  destruct (getEventAttendeeCount (parseInt (RegBody.eventId b)) w1)
    as [[current|err] w2]; cbn [fst snd]; try apply (run_finished 2).
  destruct (num_gt _ _); cbn [fst snd]; [apply (run_finished 2)|].
  rewrite run_step. cbn [step_registration].
  unfold bindH at 1. unfold await at 1.
  destruct (createRegistration (registration_data b) w2) as [[reg|err] w3];
    cbn [fst snd]; try apply (run_finished 1).
  rewrite run_step. cbn [step_registration run_registration].
  unfold bindH, await.
  destruct (updateEventAttendees _ _ w3) as [[u|err] w4]; reflexivity.
Qed.

(** C9.  Two requests for 26 tickets each reach the seeded store, whose
    event 3 has capacity 50 and no registration.  The handlers take turns
    at each [await]: both read the event, both read 0 tickets held, both
    pass the check, both insert their row and both answer 201; 52 tickets
    are then held against a capacity of 50. *)
Theorem concurrent_requests_overbook :
  exists (b1 b2 : RegBody.t) (e : Event.t) (current : Z) (r1 r2 : Response)
         (w' : World),
    parseInt (RegBody.eventId b1) = Num 3
    /\ parseInt (RegBody.eventId b2) = Num 3
    /\ event_with_id 3 (db seeded) = Some e
    /\ run_system [First; Second; First; Second]
         (mkSystem (start_registration b1) (start_registration b2) seeded)
       = mkSystem (PendingInsert b1 e current) (PendingInsert b2 e current) seeded
    /\ run_system [First; Second; First; Second; First; Second; First; Second]
         (mkSystem (start_registration b1) (start_registration b2) seeded)
       = mkSystem (Finished r1) (Finished r2) w'
    /\ status r1 = 201 /\ status r2 = 201
    /\ tickets_of_event 3 (db w') = 52
    /\ Event.capacity e = 50
    /\ tickets_of_event 3 (db w') > Event.capacity e.
Proof.
  exists (request (JNum 3) (JNum 26)), (request (JStr "3") (JStr "26")).
  do 5 eexists.
  split; [vm_compute; reflexivity|]. split; [vm_compute; reflexivity|].
  split; [vm_compute; reflexivity|]. split; [vm_compute; reflexivity|].
  split; [vm_compute; reflexivity|].
  vm_compute. repeat split; reflexivity.
Qed.


(** ** The primary key of [events] is an invariant *)

Lemma keeps_statement {A : Type} (P : DB -> Prop) (q : DB -> Result A * DB) :
  (forall d, P d -> P (snd (q d))) -> keeps P (statement q).
Proof.
  intros Hq w Hw. unfold statement.
  destruct (hd false (faults w)); [exact Hw|].
  specialize (Hq (db w) Hw). destruct (q (db w)). exact Hq.
Qed.

Lemma keeps_bindP {A B : Type} (P : DB -> Prop) (p : Promise A)
    (k : A -> Promise B) :
  keeps P p -> (forall a, keeps P (k a)) -> keeps P (bindP p k).
Proof.
  intros Hp Hk w Hw. unfold bindP. specialize (Hp w Hw).
  destruct (p w) as [[a|err] w1]; [apply Hk|]; exact Hp.
Qed.

Lemma keeps_await {A : Type} (P : DB -> Prop) (p : Promise A) :
  keeps P p -> keeps P (await p).
Proof.
  intros Hp w Hw. unfold await. specialize (Hp w Hw).
  destruct (p w) as [[a|err] w1]; exact Hp.
Qed.

Lemma keeps_bindH {A B : Type} (P : DB -> Prop) (h : Handler A)
    (k : A -> Handler B) :
  keeps P h -> (forall a, keeps P (k a)) -> keeps P (bindH h k).
Proof.
  intros Hh Hk w Hw. unfold bindH. specialize (Hh w Hw).
  destruct (h w) as [[a|r|err] w1]; [apply Hk| |]; exact Hh.
Qed.

Lemma keeps_try_catch (P : DB -> Prop) (h : Handler Response) (error : string) :
  keeps P h -> keeps P (try_catch h error).
Proof.
  intros Hh w Hw. unfold try_catch. specialize (Hh w Hw).
  destruct (h w) as [[a|r|err] w1]; exact Hh.
Qed.

Lemma events_keyed_empty : events_keyed empty_db.
Proof. split; constructor. Qed.

Lemma keyed_insert (d : DB) (row : Event.t) :
  events_keyed d -> Event.id row = events_seq d + 1 ->
  events_keyed (mkDB (events d ++ [row]) (registrations d) (events_seq d + 1)
                     (registrations_seq d)).
Proof.
  intros [Hnd Hle] Hid. split; simpl.
  - rewrite map_app. simpl.
    apply (Permutation_NoDup (Permutation_cons_append _ _)).
    constructor; [|exact Hnd].
    intros Hin. apply in_map_iff in Hin. destruct Hin as (x & Hx & Hin).
    rewrite Forall_forall in Hle. specialize (Hle x Hin). lia.
  - apply Forall_app. split.
    + eapply Forall_impl; [|exact Hle]. intros x Hx. simpl in Hx. lia.
    + constructor; [lia | constructor].
Qed.

Lemma createEvent_keeps_key (ed : EventData.t) :
  keeps events_keyed (createEvent ed).
Proof.
  apply keeps_statement. intros d Hd. cbv zeta.
  destruct (event_row (events_seq d + 1) ed) as [row|] eqn:Hrow; [|exact Hd].
  simpl. apply keyed_insert; [exact Hd|].
  unfold event_row in Hrow.
  destruct (bindText (EventData.title ed)); [|discriminate].
  destruct (bindText (EventData.description ed)); [|discriminate].
  destruct (bindText (EventData.date ed)); [|discriminate].
  destruct (bindText (EventData.time ed)); [|discriminate].
  destruct (bindText (EventData.location ed)); [|discriminate].
  destruct (bindInt (EventData.capacity ed)); [|discriminate].
  destruct (bindText (EventData.category ed)); [|discriminate].
  inversion Hrow. reflexivity.
Qed.

Lemma createRegistration_keeps_key (rd : RegistrationData.t) :
  keeps events_keyed (createRegistration rd).
Proof.
  apply keeps_statement. intros d Hd. cbv zeta.
  destruct (registration_row (registrations_seq d + 1) rd); exact Hd.
Qed.

Lemma updateEventAttendees_keeps_key (id n : num) :
  keeps events_keyed (updateEventAttendees id n).
Proof.
  apply keeps_statement. intros d [Hnd Hle]. split; simpl.
  - rewrite map_map.
    rewrite (map_ext _ Event.id); [exact Hnd|].
    intros e. destruct (id_is id (Event.id e)); reflexivity.
  - rewrite Forall_map. eapply Forall_impl; [|exact Hle].
    intros e He. destruct (id_is id (Event.id e)); exact He.
Qed.

(** Removing rows keeps the remaining ids distinct. *)
Lemma remaining_ids_distinct (keep : Event.t -> bool) (rows : list Event.t) :
  NoDup (map Event.id rows) -> NoDup (map Event.id (filter keep rows)).
Proof.
  induction rows as [|e rows IH]; simpl; intros Hnd; [constructor|].
  inversion_clear Hnd as [|? ? Hfresh Hrest].
  destruct (keep e); simpl; [|apply IH; exact Hrest].
  constructor; [|apply IH; exact Hrest].
  intros Hin. apply Hfresh. apply in_map_iff in Hin.
  destruct Hin as (e' & Hid & Hin). apply filter_In in Hin.
  rewrite <- Hid. apply in_map. apply Hin.
Qed.

Lemma deleteEvent_keeps_key (id : num) : keeps events_keyed (deleteEvent id).
Proof.
  unfold deleteEvent. apply keeps_bindP.
  - apply keeps_statement. intros d Hd. exact Hd.
  - intros _. apply keeps_statement. intros d [Hnd Hle]. split; simpl.
    + apply remaining_ids_distinct. exact Hnd.
    + apply Forall_forall. intros e He. apply filter_In in He.
      rewrite Forall_forall in Hle. apply Hle. apply He.
Qed.

Lemma post_registration_keeps_key (b : RegBody.t) :
  keeps events_keyed (post_registration b).
Proof.
  unfold post_registration. apply keeps_try_catch. unfold register.
  destruct (registration_invalid b); [intros w Hw; exact Hw|].
  apply keeps_bindH.
  { apply keeps_await, keeps_statement. intros d Hd. exact Hd. }
  intros [e|]; [|intros w Hw; exact Hw].
  apply keeps_bindH.
  { apply keeps_await, keeps_statement. intros d Hd. exact Hd. }
  intros current. destruct (num_gt _ _); [intros w Hw; exact Hw|].
  apply keeps_bindH; [apply keeps_await, createRegistration_keeps_key|].
  intros reg. cbv zeta.
  apply keeps_bindH; [apply keeps_await, updateEventAttendees_keeps_key|].
  intros _ w Hw. exact Hw.
Qed.

Lemma post_event_keeps_key (parseFloat : JsVal -> option Q) (b : EventBody.t) :
  keeps events_keyed (post_event parseFloat b).
Proof.
  unfold post_event. apply keeps_try_catch.
  destruct (event_invalid b); [intros w Hw; exact Hw|].
  apply keeps_bindH; [apply keeps_await, createEvent_keeps_key|].
  intros ev w Hw. exact Hw.
Qed.

Lemma delete_event_keeps_key (id : string) :
  keeps events_keyed (delete_event id).
Proof.
  unfold delete_event. apply keeps_try_catch. cbv zeta.
  apply keeps_bindH; [apply keeps_await, deleteEvent_keeps_key|].
  intros n. destruct (n =? 0); intros w Hw; exact Hw.
Qed.

Lemma seeded_keyed : events_keyed (db seeded).
Proof.
  split; vm_compute.
  - repeat constructor; simpl; intuition discriminate.
  - repeat constructor; discriminate.
Qed.


(** ** No request can overbook an event *)

(** What a registration request can do to the database: nothing, or, once
    the capacity check has passed, the new row alone (when the UPDATE of
    the counter fails) or the new row and the counter. *)
Lemma post_registration_effect (b : RegBody.t) (w : World) (r : Response)
    (w' : World) :
  post_registration b w = (r, w') ->
  db w' = db w
  \/ exists id t e row,
       event_with_id id (db w) = Some e
       /\ tickets_of_event id (db w) + t <= Event.capacity e
       /\ Registration.event_id row = id /\ Registration.tickets row = t
       /\ (db w' = store_registration row (db w)
           \/ db w' = store_attendees id (tickets_of_event id (db w) + t)
                        (store_registration row (db w))).
Proof.
  unfold post_registration, register, try_catch.
  assert (Hnone : forall (x : Response * World) (d : DB),
            db (snd x) = d -> x = (r, w') -> db w' = d).
  { intros x d Hd Hx. subst x. exact Hd. }
  destruct (registration_invalid b) eqn:Hv;
    [intros H; left; exact (Hnone _ _ eq_refl H)|].
  unfold bindH at 1. unfold await at 1. unfold getEventById, statement at 1.
  destruct (hd false (faults w)) eqn:F1;
    [intros H; left; exact (Hnone _ _ eq_refl H)|].
  cbn [db faults].
  destruct (parseInt (RegBody.eventId b)) as [|id] eqn:Hid; cbn [id_is].
  { rewrite find_none_false. intros H; left; exact (Hnone _ _ eq_refl H). }
  destruct (find _ (events (db w))) as [e|] eqn:Hfind;
    [|intros H; left; exact (Hnone _ _ eq_refl H)].
  unfold bindH at 1. unfold await at 1. unfold getEventAttendeeCount, statement at 1.
  cbn [db faults].
  destruct (hd false (tl (faults w))) eqn:F2;
    [intros H; left; exact (Hnone _ _ eq_refl H)|].
  rewrite total_or_zero. fold (tickets_of_event id (db w)).
  destruct (parseInt (RegBody.tickets b)) as [|t] eqn:Ht; cbn [num_add num_gt].
  { unfold bindH, await, createRegistration, statement. cbn [db faults].
    destruct (hd false (tl (tl (faults w)))) eqn:F3;
      [intros H; left; exact (Hnone _ _ eq_refl H)|].
    rewrite registration_row_NaN by (cbn; exact Ht).
    intros H; left; exact (Hnone _ _ eq_refl H). }
  destruct (Event.capacity e <? tickets_of_event id (db w) + t) eqn:Hcap;
    [intros H; left; exact (Hnone _ _ eq_refl H)|].
  apply Z.ltb_ge in Hcap.
  unfold bindH at 1. unfold await at 1. unfold createRegistration, statement at 1.
  cbn [db faults].
  destruct (hd false (tl (tl (faults w)))) eqn:F3;
    [intros H; left; exact (Hnone _ _ eq_refl H)|].
  destruct (registration_row _ _) as [row|] eqn:Hrow;
    [|intros H; left; exact (Hnone _ _ eq_refl H)].
  apply registration_row_fields in Hrow. destruct Hrow as (_ & Hev & Htk).
  simpl in Hev, Htk. rewrite Hid in Hev. rewrite Ht in Htk.
  assert (Hev' : Registration.event_id row = id) by congruence.
  assert (Htk' : Registration.tickets row = t) by congruence.
  unfold bindH, await, updateEventAttendees, statement.
  cbn [db faults events registrations events_seq registrations_seq].
  intros H. right. exists id, t, e, row.
  split; [exact Hfind|]. split; [exact Hcap|].
  split; [exact Hev'|]. split; [exact Htk'|].
  destruct (hd false (tl (tl (tl (faults w))))) eqn:F4.
  - left. exact (Hnone _ _ eq_refl H).
  - right. exact (Hnone _ _ eq_refl H).
Qed.

Lemma keyed_event_unique (d : DB) (id : Z) (e e' : Event.t) :
  NoDup (map Event.id (events d)) ->
  event_with_id id d = Some e -> In e' (events d) -> Event.id e' = id -> e' = e.
Proof.
  unfold event_with_id. induction (events d) as [|x l IH]; simpl; [contradiction|].
  intros Hnd Hfind Hin Hid. inversion_clear Hnd as [|? ? Hnotin Hnd'].
  destruct (Event.id x =? id) eqn:E.
  - apply Z.eqb_eq in E. inversion Hfind; subst.
    destruct Hin as [Heq | Hin]; [symmetry; exact Heq|].
    exfalso. apply Hnotin. rewrite <- Hid. apply in_map. exact Hin.
  - destruct Hin as [Heq | Hin].
    + subst. rewrite Z.eqb_refl in E. discriminate.
    + apply IH; assumption.
Qed.

Lemma tickets_with_row (k : Z) (row : Registration.t) (d : DB) :
  tickets_of_event k (store_registration row d)
  = if Registration.event_id row =? k
    then tickets_of_event k d + Registration.tickets row
    else tickets_of_event k d.
Proof.
  unfold tickets_of_event, rows_of_event. simpl. rewrite filter_app. simpl.
  destruct (Registration.event_id row =? k).
  - rewrite map_app. apply sum_snoc.
  - rewrite app_nil_r. reflexivity.
Qed.

Lemma store_registration_within (d : DB) (id t : Z) (e : Event.t)
    (row : Registration.t) :
  events_keyed d -> within_capacity d ->
  event_with_id id d = Some e ->
  tickets_of_event id d + t <= Event.capacity e ->
  Registration.event_id row = id -> Registration.tickets row = t ->
  within_capacity (store_registration row d).
Proof.
  intros [Hnd _] Hcap He Hfit Hrid Hrt. unfold within_capacity in *.
  cbn [store_registration events]. rewrite Forall_forall in *.
  intros e' Hin. rewrite tickets_with_row, Hrid, Hrt.
  destruct (id =? Event.id e') eqn:E.
  - apply Z.eqb_eq in E.
    rewrite (keyed_event_unique d id e e' Hnd He Hin (eq_sym E)).
    assert (Hide : Event.id e = id).
    { unfold event_with_id in He. apply find_some in He.
      apply Z.eqb_eq. apply He. }
    rewrite Hide. exact Hfit.
  - apply Hcap. exact Hin.
Qed.

Lemma store_attendees_within (d : DB) (id n : Z) :
  within_capacity d -> within_capacity (store_attendees id n d).
Proof.
  unfold within_capacity, store_attendees. cbn [events].
  intros H. rewrite Forall_map. eapply Forall_impl; [|exact H].
  intros e He. destruct (Event.id e =? id); exact He.
Qed.

(** Whatever a registration request is and however it ends, also when the
    engine fails half way, it leaves every event within its capacity. *)
Lemma post_registration_keeps_capacity (b : RegBody.t) (w : World) :
  events_keyed (db w) -> within_capacity (db w) ->
  within_capacity (db (snd (post_registration b w))).
Proof.
  intros Hkey Hcap. destruct (post_registration b w) as [r w'] eqn:Hrun.
  destruct (post_registration_effect b w r w' Hrun)
    as [Hsame | (id & t & e & row & He & Hfit & Hrid & Hrt & [Hdb | Hdb])];
    simpl; rewrite Hdb || rewrite Hsame.
  - exact Hcap.
  - eapply store_registration_within; eassumption.
  - apply store_attendees_within.
    eapply store_registration_within; eassumption.
Qed.

Lemma seeded_within_capacity : within_capacity (db seeded).
Proof. vm_compute. repeat constructor; discriminate. Qed.


(** * Further properties of the program *)

(** ** Lookups in a changed table *)

Lemma find_snoc {A : Type} (p : A -> bool) (l : list A) (x : A) :
  find p (l ++ [x])
  = match find p l with
    | Some y => Some y
    | None => if p x then Some x else None
    end.
Proof.
  induction l as [|y l IH]; simpl; [reflexivity|].
  destruct (p y); [reflexivity | exact IH].
Qed.

Lemma find_map_same_test {A : Type} (p : A -> bool) (f : A -> A) (l : list A) :
  (forall x, p (f x) = p x) ->
  find p (map f l) = option_map f (find p l).
Proof.
  intros Hp. induction l as [|y l IH]; simpl; [reflexivity|].
  rewrite Hp. destruct (p y); [reflexivity | exact IH].
Qed.


Lemma event_with_id_in (d : DB) (j : Z) (e : Event.t) :
  event_with_id j d = Some e -> In e (events d) /\ Event.id e = j.
Proof.
  unfold event_with_id. intros H. apply find_some in H.
  destruct H as [Hin Hid]. apply Z.eqb_eq in Hid. auto.
Qed.

Lemma in_event_with_id (d : DB) (e : Event.t) :
  In e (events d) -> event_with_id (Event.id e) d <> None.
Proof.
  unfold event_with_id. intros Hin Hnone.
  apply (find_none _ _ Hnone) in Hin. rewrite Z.eqb_refl in Hin. discriminate.
Qed.





(** ** What each route can do to the database *)


Lemma get_events_reads (category : JsVal) (w : World) :
  db (snd (get_events category w)) = db w.
Proof.
  unfold get_events, try_catch, bindH, await, getAllEvents, statement, respond.
  destruct (hd false (faults w)); reflexivity.
Qed.

Lemma get_event_reads (id : string) (w : World) :
  db (snd (get_event id w)) = db w.
Proof.
  unfold get_event, try_catch, bindH, await, getEventById, statement, respond.
  destruct (hd false (faults w)); [reflexivity|]. cbn [db].
  destruct (find _ _); reflexivity.
Qed.

Lemma get_registrations_reads (id : string) (w : World) :
  db (snd (get_registrations id w)) = db w.
Proof.
  unfold get_registrations, try_catch, bindH, await, getEventRegistrations,
    statement, respond.
  destruct (hd false (faults w)); reflexivity.
Qed.

Lemma event_row_fields (lastID : Z) (ed : EventData.t) (row : Event.t) :
  event_row lastID ed = Some row ->
  EventData.capacity ed = Num (Event.capacity row)
  /\ row = Event.mk lastID (text_of (EventData.title ed))
             (text_of (EventData.description ed)) (text_of (EventData.date ed))
             (text_of (EventData.time ed)) (text_of (EventData.location ed))
             (Event.capacity row) (Some 0) (text_of (EventData.category ed))
             (bindText (js_or (EventData.image ed) (JStr placeholder_image)))
             (Some (price_or_zero (EventData.price ed))).
Proof.
  unfold event_row, text_of.
  destruct (bindText (EventData.title ed)); [|discriminate].
  destruct (bindText (EventData.description ed)); [|discriminate].
  destruct (bindText (EventData.date ed)); [|discriminate].
  destruct (bindText (EventData.time ed)); [|discriminate].
  destruct (bindText (EventData.location ed)); [|discriminate].
  destruct (EventData.capacity ed) as [|c]; cbn [bindInt]; [discriminate|].
  destruct (bindText (EventData.category ed)); [|discriminate].
  intros H. inversion H; subst; clear H. simpl. auto.
Qed.

(** POST /api/events changes nothing or appends one event under the next
    id of the sequence. *)
Lemma post_event_effect (parseFloat : JsVal -> option Q) (b : EventBody.t)
    (w : World) :
  db (snd (post_event parseFloat b w)) = db w
  \/ exists row,
       event_row (events_seq (db w) + 1) (event_data parseFloat b) = Some row
       /\ db (snd (post_event parseFloat b w)) = with_event row (db w).
Proof.
  unfold post_event, try_catch, respond.
  destruct (event_invalid b); [left; reflexivity|].
  unfold bindH, await, createEvent, statement.
  destruct (hd false (faults w)); [left; reflexivity|].
  destruct (event_row _ _) as [row|] eqn:Hrow; [|left; reflexivity].
  right. exists row. split; reflexivity.
Qed.

(** DELETE /api/events/:id changes nothing, or removes the registrations
    of the event, or removes them and then the event. *)
Lemma delete_event_effect (id : string) (w : World) :
  let eventId := parseInt (JStr id) in
  db (snd (delete_event id w)) = db w
  \/ db (snd (delete_event id w)) = without_registrations eventId (db w)
  \/ db (snd (delete_event id w))
     = without_event eventId (without_registrations eventId (db w)).
Proof.
  cbv zeta. unfold delete_event, try_catch, bindH, await, deleteEvent, bindP,
    statement, respond.
  destruct (hd false (faults w)); [left; reflexivity|]. cbn [db faults].
  destruct (hd false (tl (faults w))); [right; left; reflexivity|].
  right. right. cbn [events].
  destruct (_ =? 0); reflexivity.
Qed.

(** ** The invariants under each change *)














Lemma empty_consistent : consistent empty_db.
Proof. repeat split; constructor. Qed.



(** ** The whole API, request after request *)



Lemma route_sequence_grows (parseFloat : JsVal -> option Q) (rq : Request)
    (w : World) :
  events_seq (db w) <= events_seq (db (snd (route parseFloat rq w))).
Proof.
  destruct rq as [category | id | b | id | b | id]; cbn [route].
  - rewrite get_events_reads. lia.
  - rewrite get_event_reads. lia.
  - destruct (post_event_effect parseFloat b w) as [Hsame | (row & _ & Hdb)];
      rewrite ?Hsame, ?Hdb; simpl; lia.
  - destruct (delete_event_effect id w) as [Hsame | [Hdb | Hdb]];
      rewrite ?Hsame, ?Hdb; simpl; lia.
  - destruct (post_registration b w) as [r w'] eqn:Hrun.
    destruct (post_registration_effect b w r w' Hrun)
      as [Hsame | (id & t & e & row & _ & _ & _ & _ & [Hdb | Hdb])];
      cbn [snd]; rewrite ?Hsame, ?Hdb; simpl; lia.
  - rewrite get_registrations_reads. lia.
Qed.

(** An event found after a request under an id that the sequence had
    already passed was there before the request and differs at most in its
    counter. *)
Lemma route_keeps_events (parseFloat : JsVal -> option Q) (rq : Request)
    (w : World) (j : Z) (e' : Event.t) :
  events_keyed (db w) -> j <= events_seq (db w) ->
  event_with_id j (db (snd (route parseFloat rq w))) = Some e' ->
  exists e, event_with_id j (db w) = Some e /\ same_event e e'.
Proof.
  intros Hkey Hj.
  assert (Hrefl : forall d, events d = events (db w) ->
            event_with_id j d = Some e' ->
            exists e, event_with_id j (db w) = Some e /\ same_event e e').
  { intros d Hd H. exists e'. unfold event_with_id in *. rewrite <- Hd.
    split; [exact H | reflexivity]. }
  assert (Hupd : forall d id n, events d = events (db w) ->
            event_with_id j (store_attendees id n d) = Some e' ->
            exists e, event_with_id j (db w) = Some e /\ same_event e e').
  { intros d id n Hd. unfold event_with_id. cbn [store_attendees events].
    rewrite Hd. rewrite (find_map_same_test (fun e => Event.id e =? j)).
    - destruct (find _ (events (db w))) as [e|]; [|discriminate].
      intros H. inversion H; subst; clear H. exists e. split; [reflexivity|].
      destruct (Event.id e =? id); reflexivity.
    - intros e. destruct (Event.id e =? id); reflexivity. }
  destruct rq as [category | id | b | id | b | id]; cbn [route].
  - rewrite get_events_reads. apply Hrefl. reflexivity.
  - rewrite get_event_reads. apply Hrefl. reflexivity.
  - destruct (post_event_effect parseFloat b w) as [Hsame | (row & Hrow & Hdb)];
      rewrite ?Hsame, ?Hdb; [apply Hrefl; reflexivity|].
    unfold event_with_id. cbn [with_event events]. rewrite find_snoc.
    destruct (find _ (events (db w))) as [e|] eqn:Hfind.
    + intros H. inversion H; subst. exists e'. split; reflexivity.
    + apply event_row_fields in Hrow. destruct Hrow as [_ Hrow].
      destruct (Event.id row =? j) eqn:E; [|discriminate].
      apply Z.eqb_eq in E. rewrite Hrow in E. simpl in E. lia.
  - destruct (delete_event_effect id w) as [Hsame | [Hdb | Hdb]];
      rewrite ?Hsame, ?Hdb; [apply Hrefl; reflexivity .. |].
    intros H. apply event_with_id_in in H. destruct H as [Hin Hid].
    cbn [without_event without_registrations events] in Hin.
    apply filter_In in Hin. destruct Hin as [Hin _].
    destruct (event_with_id j (db w)) as [e|] eqn:He.
    + exists e. split; [reflexivity|].
      rewrite (keyed_event_unique (db w) j e e' (proj1 Hkey) He Hin Hid).
      reflexivity.
    + exfalso. apply (in_event_with_id (db w) e' Hin). rewrite Hid. exact He.
  - destruct (post_registration b w) as [r w'] eqn:Hrun.
    destruct (post_registration_effect b w r w' Hrun)
      as [Hsame | (id & t & e & row & _ & _ & _ & _ & [Hdb | Hdb])];
      cbn [snd]; rewrite ?Hsame, ?Hdb;
      [apply Hrefl; reflexivity .. | apply Hupd; reflexivity].
  - rewrite get_registrations_reads. apply Hrefl. reflexivity.
Qed.

Lemma same_event_trans (a b c : Event.t) :
  same_event a b -> same_event b c -> same_event a c.
Proof. unfold same_event. congruence. Qed.

Lemma run_keeps_key (parseFloat : JsVal -> option Q) (rq : Request) :
  keeps events_keyed (route parseFloat rq).
Proof.
  destruct rq as [category | id | b | id | b | id]; cbn [route]; intros w Hw.
  - rewrite get_events_reads. exact Hw.
  - rewrite get_event_reads. exact Hw.
  - apply post_event_keeps_key. exact Hw.
  - apply delete_event_keeps_key. exact Hw.
  - apply post_registration_keeps_key. exact Hw.
  - rewrite get_registrations_reads. exact Hw.
Qed.

(** X2.  No route rewrites an event: an event found after any sequence of
    requests, under an id that had been issued before them, is the event
    that was there before, the same in every column except the counter
    [attendees].  In particular its capacity never changes and an id is
    never given to a second event. *)
Theorem events_change_only_in_counter (parseFloat : JsVal -> option Q)
    (requests : list Request) (w : World) (j : Z) (e' : Event.t) :
  events_keyed (db w) -> j <= events_seq (db w) ->
  event_with_id j (db (run parseFloat requests w)) = Some e' ->
  exists e,
    event_with_id j (db w) = Some e /\ same_event e e'
    /\ Event.capacity e' = Event.capacity e.
Proof.
  revert w. induction requests as [|rq rest IH]; intros w Hkey Hj; simpl.
  - intros H. exists e'. repeat split. exact H.
  - intros H.
    destruct (IH (snd (route parseFloat rq w))) as (e1 & He1 & Hsame1 & _);
      [apply run_keeps_key; exact Hkey
      | pose proof (route_sequence_grows parseFloat rq w); lia
      | exact H |].
    destruct (route_keeps_events parseFloat rq w j e1 Hkey Hj He1)
      as (e & He & Hsame).
    exists e. split; [exact He|].
    pose proof (same_event_trans e e1 e' Hsame Hsame1) as Hall.
    split; [exact Hall|].
    symmetry. apply (same_event_fields e e' Hall).
Qed.

Lemma events_change_only_in_counter_witness :
  exists e,
    event_with_id 1 (db seeded) = Some e
    /\ same_event e
         (Event.set_attendees (Some 180)
            (sample_row 1 (nth 0 sampleEvents (SampleEvent.mk "" "" "" "" "" 0 0 "" "" 0%Q))))
    /\ Event.capacity
         (Event.set_attendees (Some 180)
            (sample_row 1 (nth 0 sampleEvents (SampleEvent.mk "" "" "" "" "" 0 0 "" "" 0%Q))))
       = Event.capacity e.
Proof.
  apply (events_change_only_in_counter (fun _ => None) afternoon seeded 1).
  - exact seeded_keyed.
  - vm_compute. discriminate.
  - vm_compute. reflexivity.
Defined.

Lemma run_sequence_grows (parseFloat : JsVal -> option Q)
    (requests : list Request) (w : World) :
  events_keyed (db w) ->
  events_keyed (db (run parseFloat requests w))
  /\ events_seq (db w) <= events_seq (db (run parseFloat requests w)).
Proof.
  revert w. induction requests as [|rq rest IH]; intros w Hkey; simpl.
  - split; [exact Hkey | lia].
  - destruct (IH (snd (route parseFloat rq w))) as [Hkey' Hle];
      [apply run_keeps_key; exact Hkey|].
    split; [exact Hkey'|].
    pose proof (route_sequence_grows parseFloat rq w). lia.
Qed.

Lemma post_event_201 (parseFloat : JsVal -> option Q) (b : EventBody.t)
    (w : World) (r : Response) :
  fst (post_event parseFloat b w) = r -> status r = 201 ->
  event_invalid b = false
  /\ r = mkResponse 201
           (CreatedEventJson
              (CreatedEvent.mk (events_seq (db w) + 1) (event_data parseFloat b) 0)).
Proof.
  unfold post_event, try_catch, respond.
  destruct (event_invalid b); [intros <-; discriminate|].
  unfold bindH, await, createEvent, statement.
  destruct (hd false (faults w)); [intros <-; discriminate|].
  destruct (event_row _ _); [|intros <-; discriminate].
  intros <- _. split; reflexivity.
Qed.

(** X3.  The id given to a new event is larger than the id of every event
    that ever existed, also of events deleted since: a stale link to a
    deleted event can never reach another event. *)
Theorem event_ids_never_reused (parseFloat : JsVal -> option Q)
    (requests : list Request) (b : EventBody.t) (w : World) (k : Z)
    (e : Event.t) (ev : CreatedEvent.t) :
  events_keyed (db w) ->
  event_with_id k (db w) = Some e ->
  fst (post_event parseFloat b (run parseFloat requests w))
    = mkResponse 201 (CreatedEventJson ev) ->
  k < CreatedEvent.id ev.
Proof.
  intros Hkey He Hpost.
  destruct (run_sequence_grows parseFloat requests w Hkey) as [_ Hle].
  destruct (post_event_201 parseFloat b _ _ Hpost eq_refl) as [_ Hr].
  inversion Hr; subst; clear Hr. cbn [CreatedEvent.id].
  destruct Hkey as [_ Hids]. apply event_with_id_in in He.
  destruct He as [Hin Hid]. rewrite Forall_forall in Hids.
  specialize (Hids e Hin). lia.
Qed.

(** Event 3 is deleted and an event is created: it is event 4. *)
Lemma event_ids_never_reused_witness :
  3 < CreatedEvent.id (CreatedEvent.mk 4 (event_data (fun _ => None) meetup) 0).
Proof.
  apply (event_ids_never_reused (fun _ => None) [DeleteEvent "3"] meetup seeded 3
           (sample_row 3 (nth 2 sampleEvents (SampleEvent.mk "" "" "" "" "" 0 0 "" "" 0%Q)))).
  - exact seeded_keyed.
  - vm_compute. reflexivity.
  - vm_compute. reflexivity.
Defined.

(** ** Creating an event through the route *)

Lemma falsy_event_field_invalid (b : EventBody.t) :
  Exists (fun v => truthy v = false) (required_event_fields b) ->
  event_invalid b = true.
Proof.
  unfold required_event_fields, event_invalid. intros H.
  repeat match goal with
         | H : Exists _ (_ :: _) |- _ =>
             let E := fresh in
             inversion_clear H as [? ? E | ? ? E]; [rewrite E|]
         | H : Exists _ [] |- _ => inversion H
         end; simpl; rewrite ?orb_true_r; reflexivity.
Qed.

(** X4.  POST /api/events with a required field (title, description,
    date, time, location, capacity, category) missing or falsy, such as a
    capacity given as the number 0, is answered 400 "All fields are
    required" before any statement is issued: nothing is stored. *)
Theorem post_event_missing_field (parseFloat : JsVal -> option Q)
    (b : EventBody.t) (w : World) :
  Exists (fun v => truthy v = false) (required_event_fields b) ->
  post_event parseFloat b w
  = (mkResponse 400 (ErrorJson "All fields are required"), w).
Proof.
  intros H. unfold post_event, try_catch, respond.
  rewrite (falsy_event_field_invalid b H). reflexivity.
Qed.

Lemma post_event_missing_field_witness :
  post_event (fun _ => None) (meetup_for JUndefined) seeded
  = (mkResponse 400 (ErrorJson "All fields are required"), seeded).
Proof.
  apply (post_event_missing_field (fun _ => None) (meetup_for JUndefined) seeded).
  unfold required_event_fields. do 5 apply Exists_cons_tl. apply Exists_cons_hd.
  reflexivity.
Defined.






(** ** Edges of the registration route *)















(** ** Deleting: what is spared, and unknown ids *)









(** ** The counter and the count *)



(** X16.  [updateEventAttendees] overwrites the counter of the event with
    the given id with whatever number it is given, without comparing it
    with the capacity, and touches no other event and no registration;
    for an id that no event has it resolves all the same and changes
    nothing. *)
Theorem updateEventAttendees_overwrites (k : Z) (n : num) (w : World) :
  hd false (faults w) = false ->
  fst (updateEventAttendees (Num k) n w) = Resolved tt
  /\ (forall j,
        event_with_id j (db (snd (updateEventAttendees (Num k) n w)))
        = option_map (fun e => if j =? k
                               then Event.set_attendees (bindInt n) e else e)
                     (event_with_id j (db w)))
  /\ registrations (db (snd (updateEventAttendees (Num k) n w)))
     = registrations (db w)
  /\ (event_with_id k (db w) = None ->
      db (snd (updateEventAttendees (Num k) n w)) = db w).
Proof.
  intros F1. unfold updateEventAttendees. rewrite statement_runs by exact F1.
  cbn [fst snd db events registrations id_is].
  split; [reflexivity|]. split; [|split; [reflexivity|]].
  - intros j. unfold event_with_id. cbn [events].
    rewrite (find_map_same_test (fun e => Event.id e =? j)).
    + destruct (find _ (events (db w))) as [e|] eqn:Hfind; [|reflexivity].
      apply find_some in Hfind. destruct Hfind as [_ Hid].
      apply Z.eqb_eq in Hid. cbn [option_map]. rewrite Hid. reflexivity.
    + intros e. destruct (Event.id e =? k); reflexivity.
  - intros Hnone.
    assert (Hmap : map (fun e => if Event.id e =? k
                                 then Event.set_attendees (bindInt n) e else e)
                       (events (db w)) = events (db w)).
    { rewrite <- (map_id (events (db w))) at 2. apply map_ext_in.
      intros e Hin. destruct (Event.id e =? k) eqn:E; [|reflexivity].
      apply Z.eqb_eq in E. exfalso.
      apply (in_event_with_id (db w) e Hin). rewrite E. exact Hnone. }
    rewrite Hmap. destruct (db w); reflexivity.
Qed.

Lemma updateEventAttendees_overwrites_witness :
  event_with_id 3 (db (snd (updateEventAttendees (Num 3) (Num 1000) seeded)))
  = option_map (fun e => if 3 =? 3
                         then Event.set_attendees (bindInt (Num 1000)) e else e)
               (event_with_id 3 (db seeded)).
Proof.
  destruct (updateEventAttendees_overwrites 3 (Num 1000) seeded) as (_ & Hfind & _);
    [reflexivity|].
  apply Hfind.
Defined.

(** ** Start-up *)



Lemma count_of_events (w : World) :
  hd false (faults w) = false ->
  getEventCount w
  = (Resolved (Z.of_nat (List.length (events (db w)))),
     mkWorld (db w) (tl (faults w))).
Proof.
  intros F1. unfold getEventCount. rewrite statement_runs by exact F1. reflexivity.
Qed.

(** X17.  Starting the server on a database that already holds an event
    inserts nothing: when the three statements run, [initDatabase]
    resolves and the database is untouched, so restarting never
    duplicates or restores the sample events. *)
Theorem initDatabase_keeps_existing_events (w : World) :
  events (db w) <> [] ->
  fault_free 3 w = true ->
  initDatabase w
  = (Settles (Resolved tt), mkWorld (db w) (tl (tl (tl (faults w))))).
Proof.
  intros Hsome Hff.
  apply fault_free_S in Hff. destruct Hff as [F1 Hff]. specialize (Hff (db w)).
  apply fault_free_S in Hff. destruct Hff as [F2 Hff]. specialize (Hff (db w)).
  apply fault_free_S in Hff. destruct Hff as [F3 _]. cbn [faults] in *.
  unfold initDatabase.
  rewrite statement_runs by exact F1. cbn [fst snd].
  rewrite statement_runs by exact F2. cbn [fst snd].
  rewrite count_of_events by exact F3. cbn [db faults].
  destruct (events (db w)) as [|e l]; [contradiction|].
  reflexivity.
Qed.

Lemma initDatabase_keeps_existing_events_witness :
  initDatabase booked = (Settles (Resolved tt), booked).
Proof.
  apply (initDatabase_keeps_existing_events booked).
  - vm_compute. discriminate.
  - reflexivity.
Defined.





(** ** The CSV export *)

Lemma line_feeds_app (a b : string) :
  line_feeds (a ++ b) = (line_feeds a + line_feeds b)%nat.
Proof.
  induction a as [|c a IH]; simpl; [reflexivity|].
  rewrite IH. destruct (Ascii.eqb c line_feed); reflexivity.
Qed.

Lemma line_feeds_line (s : string) :
  line_feeds (String line_feed s) = S (line_feeds s).
Proof. reflexivity. Qed.

Lemma line_feeds_digits (d : Decimal.uint) :
  line_feeds (NilEmpty.string_of_uint d) = O.
Proof. induction d; simpl; auto. Qed.

Lemma line_feeds_show_Z (z : Z) : line_feeds (show_Z z) = O.
Proof.
  assert (H : forall d, line_feeds (NilZero.string_of_uint d) = O).
  { intros d. destruct d; try reflexivity; apply (line_feeds_digits (_ d)). }
  unfold show_Z. destruct (Z.to_int z) as [d|d]; simpl; apply H.
Qed.

Lemma line_feeds_quoted (s : string) : line_feeds (quoted s) = line_feeds s.
Proof.
  unfold quoted. simpl. rewrite line_feeds_app. simpl. lia.
Qed.

Lemma line_feeds_csv_rows (registration_date : Registration.t -> string)
    (event : Event.t) (rows : list Registration.t) :
  single_lines registration_date event rows ->
  line_feeds (csv_rows registration_date rows) = List.length rows.
Proof.
  intros (_ & _ & _ & _ & Hrows).
  induction Hrows as [|reg rows Hreg _ IH]; [reflexivity|].
  destruct Hreg as (H1 & H2 & H3 & H4 & H5 & H6).
  cbn [csv_rows fold_right List.length]. rewrite line_feeds_app.
  fold (csv_rows registration_date rows).
  rewrite line_feeds_line, IH. unfold csv_row. cbn [String.concat].
  rewrite !line_feeds_app, !line_feeds_quoted, line_feeds_show_Z.
  rewrite H1, H2, H3, H4, H5, H6. reflexivity.
Qed.

(** X20.  The export of an event that exists, when both reads run and no
    stored text of the event and of its registrations holds a line feed,
    is a file named after the id read from the path whose content has six
    lines of heading and then exactly one line for each registration of
    the event.  The fields are written between double quotes as they
    are, so the condition on the texts is needed. *)
Theorem export_one_line_per_registration
    (registration_date : Registration.t -> string) (id : string) (w : World)
    (j : Z) (e : Event.t) :
  parseInt (JStr id) = Num j ->
  event_with_id j (db w) = Some e ->
  fault_free 2 w = true ->
  single_lines registration_date e (rows_of_event (Num j) (registrations (db w))) ->
  exists content,
    fst (export_event registration_date id w)
      = ExportCsv ("event-" ++ show_Z j ++ "-registrations.csv") content
    /\ line_feeds content
       = (6 + List.length (rows_of_event (Num j) (registrations (db w))))%nat
    /\ db (snd (export_event registration_date id w)) = db w.
Proof.
  intros Hid He Hff Hlines.
  apply fault_free_S in Hff. destruct Hff as [F1 Hff]. specialize (Hff (db w)).
  apply fault_free_S in Hff. destruct Hff as [F2 _]. cbn [faults] in F2.
  unfold export_event. cbv zeta. rewrite Hid.
  unfold getEventById. rewrite statement_runs by exact F1. cbn [fst snd id_is].
  unfold event_with_id in He. rewrite He.
  unfold getEventRegistrations. rewrite statement_runs by exact F2.
  cbn [fst snd db show_num].
  eexists. split; [reflexivity|]. split; [|reflexivity].
  pose proof (line_feeds_csv_rows registration_date e _ Hlines) as Hrows.
  destruct Hlines as (Ht & Hd & Htm & Hl & _).
  unfold csv_content.
  repeat (rewrite line_feeds_app || rewrite line_feeds_line).
  rewrite Ht, Hd, Htm, Hl, line_feeds_show_Z, Hrows.
  change (line_feeds "Event: ") with O. change (line_feeds "Date: ") with O.
  change (line_feeds " ") with O. change (line_feeds "Location: ") with O.
  change (line_feeds "Total Registrations: ") with O.
  change (line_feeds csv_header) with O. lia.
Qed.

Lemma export_one_line_per_registration_witness :
  exists content,
    fst (export_event (fun _ => "2026-01-05 09:30:00") "3" booked)
      = ExportCsv "event-3-registrations.csv" content
    /\ line_feeds content = 7%nat.
Proof.
  destruct (export_one_line_per_registration (fun _ => "2026-01-05 09:30:00")
              "3" booked 3
              (Event.set_attendees (Some 20)
                 (sample_row 3 (nth 2 sampleEvents
                                  (SampleEvent.mk "" "" "" "" "" 0 0 "" "" 0%Q)))))
    as (content & Hfile & Hcount & _).
  - reflexivity.
  - vm_compute. reflexivity.
  - reflexivity.
  - vm_compute. repeat split. repeat constructor.
  - exists content. split; [exact Hfile | exact Hcount].
Defined.




(** ** Deleting twice, and registering for a deleted event *)

Lemma filter_twice {A : Type} (p : A -> bool) (l : list A) :
  filter p (filter p l) = filter p l.
Proof.
  induction l as [|x l IH]; simpl; [reflexivity|].
  destruct (p x) eqn:E; simpl; [rewrite E, IH; reflexivity | exact IH].
Qed.

Lemma delete_event_runs (id : string) (w : World) :
  fault_free 2 w = true ->
  delete_event id w
  = ((if Z.of_nat (List.length
                     (filter (fun e => id_is (parseInt (JStr id)) (Event.id e))
                             (events (db w)))) =? 0
      then mkResponse 404 (ErrorJson "Event not found")
      else mkResponse 200 (MessageJson "Event deleted successfully")),
     mkWorld (without_event (parseInt (JStr id))
                (without_registrations (parseInt (JStr id)) (db w)))
             (tl (tl (faults w)))).
Proof.
  intros Hff. apply fault_free_S in Hff. destruct Hff as [F1 Hff].
  unfold delete_event, try_catch, bindH, await, deleteEvent, bindP. cbv zeta.
  rewrite statement_runs by exact F1. cbn [fst snd].
  match goal with
  | |- context [statement ?q ?w0] =>
      specialize (Hff (db w0)); apply fault_free_S in Hff;
      destruct Hff as [F2 _]; cbn [faults] in F2;
      rewrite (statement_runs q w0) by exact F2
  end.
  cbn [fst snd db events faults]. destruct (_ =? 0); reflexivity.
Qed.

(** X22.  Deleting is idempotent: when no statement fails, a second
    DELETE of the same id answers 404 "Event not found" and leaves the
    database exactly as the first one left it. *)
Theorem delete_twice (id : string) (w : World) :
  fault_free 4 w = true ->
  let w1 := snd (delete_event id w) in
  fst (delete_event id w1) = mkResponse 404 (ErrorJson "Event not found")
  /\ db (snd (delete_event id w1)) = db w1.
Proof.
  intros Hff. cbv zeta.
  pose proof (fault_free_two_of_four w Hff) as Hff2.
  rewrite (delete_event_runs id w Hff2).
  assert (Hff' : fault_free 2
            (mkWorld (without_event (parseInt (JStr id))
                        (without_registrations (parseInt (JStr id)) (db w)))
                     (tl (tl (faults w)))) = true).
  { apply fault_free_S in Hff. destruct Hff as [_ Hff]. specialize (Hff (db w)).
    apply fault_free_S in Hff. destruct Hff as [_ Hff]. apply Hff. }
  cbn [snd]. rewrite (delete_event_runs id _ Hff'). cbn [fst snd db].
  unfold without_event, without_registrations.
  cbn [events registrations events_seq registrations_seq].
  rewrite (filter_filter_negb (fun e => id_is (parseInt (JStr id)) (Event.id e))).
  rewrite !filter_twice. split; reflexivity.
Qed.

Lemma delete_twice_witness :
  fst (delete_event "3" (snd (delete_event "3" booked)))
    = mkResponse 404 (ErrorJson "Event not found")
  /\ db (snd (delete_event "3" (snd (delete_event "3" booked))))
     = db (snd (delete_event "3" booked)).
Proof.
  apply (delete_twice "3" booked). reflexivity.
Defined.



